(** * Weekly scheduler: the model built by [generate_schedule] and what
      its extractor returns.

    The development embeds [src/solver.py].  The function builds a CP-SAT
    model (Boolean variables, "at most one" and linear constraints, a linear
    objective), hands it to the OR-Tools engine and reads the schedule off the
    returned values.  The engine is a third-party library: it is a parameter
    [Solve] here, and every property that depends on it names the part of the
    engine's contract it uses. *)

From stdpp Require Import gmap strings list fin_maps.

Local Open Scope Z_scope.

(** ** Input records

    The dictionaries that [get_solver_data] (src/app.py) hands to the solver. *)

Record Employee := mkEmployee {
  emp_id : Z;
  emp_name : string;
  skills : list string;
  unavailable_days : list string
}.

Record Task := mkTask {
  task_id : Z;
  task_name : string;
  required_skill : string;
  priority : Z
}.

(** One element of the returned [schedule] list. *)
Record Entry := mkEntry {
  day : string;
  shift : string;
  employee_id : Z;
  employee_name : string;
  entry_task_id : Z;
  entry_task_name : string
}.

Global Instance Entry_eq_dec : EqDecision Entry.
Proof. solve_decision. Defined.

Global Instance Task_eq_dec : EqDecision Task.
Proof. solve_decision. Defined.

(** The grid of [get_solver_data]. *)
Definition DAYS : list string :=
  ["Mon"; "Tue"; "Wed"; "Thu"; "Fri"; "Sat"; "Sun"]%string.
Definition SHIFTS : list string := ["Morning"; "Evening"]%string.

(** ** The CP-SAT model

    The dictionary [assignment] is keyed by [(emp id, day, shift, task id)];
    [assignment[key]] is the Boolean variable last created under that key, so
    two loop iterations with equal keys denote one and the same variable.
    A variable is identified with its key. *)

Definition Var : Type := Z * string * string * Z.

Inductive Constraint :=
  | AddAtMostOne (lits : list Var)            (* model.AddAtMostOne(lits) *)
  | AddEqZero (x : Var)                       (* model.Add(x == 0) *)
  | AddSumLe (xs : list Var) (bound : Z).     (* model.Add(sum(xs) <= bound) *)

Record CpModel := mkModel {
  variables : list Var;              (* one per NewBoolVar call, in order *)
  constraints : list Constraint;     (* in the order they were added *)
  objective : list (Var * Z)         (* the terms of the maximised sum *)
}.

(** The statuses of [cp_model]. *)
Inductive CpSolverStatus :=
  UNKNOWN | MODEL_INVALID | FEASIBLE | INFEASIBLE | OPTIMAL.

Definition zsum (l : list Z) : Z := foldr Z.add 0 l.

(** What the engine takes the model to mean, for the values [value] of the
    variables.  A Boolean variable is 0 or 1.  [AddAtMostOne] bounds the sum
    of its literals by 1, so a literal listed twice has to be 0.  A sum over
    no variable is 0: for an empty grid Python's [sum([]) <= max_shifts] is
    already a Boolean, which [model.Add] takes as the constant constraint of
    that truth value. *)
Section Semantics.
Variable value : Var → Z.

Definition is_bool (x : Var) : bool := (value x =? 0) || (value x =? 1).

Definition holds (c : Constraint) : bool :=
  match c with
  | AddAtMostOne lits => forallb is_bool lits && (zsum (value <$> lits) <=? 1)
  | AddEqZero x => value x =? 0
  | AddSumLe xs bound => zsum (value <$> xs) <=? bound
  end.

Definition feasible (m : CpModel) : bool :=
  forallb is_bool (variables m) && forallb holds (constraints m).

Definition objective_value (m : CpModel) : Z :=
  zsum ((λ t : Var * Z, value t.1 * t.2) <$> objective m).
End Semantics.

(** ** Model builder: lines 8-73 of [generate_schedule] *)

Definition key (emp : Employee) (d s : string) (task : Task) : Var :=
  (emp_id emp, d, s, task_id task).

Definition has_skill (task : Task) (emp : Employee) : bool :=
  bool_decide (required_skill task ∈ skills emp).

(** [rules.get('max_shifts_per_week', 7)] *)
Definition max_shifts (rules : gmap string Z) : Z :=
  default 7 (rules !! "max_shifts_per_week"%string).

(** [preferences.get((emp['id'], task['id']), 0)] *)
Definition preference (preferences : gmap (Z * Z) Z)
    (emp : Employee) (task : Task) : Z :=
  default 0 (preferences !! (emp_id emp, task_id task)).

Section Builder.
Variables (employees : list Employee) (tasks : list Task).
Variables (days shifts : list string).
Variables (preferences : gmap (Z * Z) Z) (rules : gmap string Z).

Definition create_variables : list Var :=
  emp ← employees; d ← days; s ← shifts; task ← tasks; [key emp d s task].

Definition task_constraints : list Constraint :=
  task ← tasks;
  [AddAtMostOne (emp ← employees; d ← days; s ← shifts; [key emp d s task])].

Definition skill_constraints : list Constraint :=
  emp ← employees; d ← days; s ← shifts; task ← tasks;
  if has_skill task emp then [] else [AddEqZero (key emp d s task)].

Definition availability_constraints : list Constraint :=
  emp ← employees; d ← unavailable_days emp;
  if bool_decide (d ∈ days)
  then s ← shifts; task ← tasks; [AddEqZero (key emp d s task)]
  else [].

Definition slot_constraints : list Constraint :=
  emp ← employees; d ← days; s ← shifts;
  [AddAtMostOne (task ← tasks; [key emp d s task])].

Definition total_shifts_for_employee (emp : Employee) : list Var :=
  d ← days; s ← shifts; task ← tasks; [key emp d s task].

Definition cap_constraints : list Constraint :=
  emp ← employees;
  [AddSumLe (total_shifts_for_employee emp) (max_shifts rules)].

Definition objective_terms : list (Var * Z) :=
  (emp ← employees; d ← days; s ← shifts; task ← tasks;
     [(key emp d s task, priority task)])
  ++
  (emp ← employees; d ← days; s ← shifts; task ← tasks;
     [(key emp d s task, preference preferences emp task)]).

Definition build_model : CpModel :=
  {| variables := create_variables;
     constraints := task_constraints ++ skill_constraints
                      ++ availability_constraints ++ slot_constraints
                      ++ cap_constraints;
     objective := objective_terms |}.
End Builder.

(** ** Solving and extraction: lines 75-103 *)

Definition accepted (status : CpSolverStatus) : bool :=
  match status with OPTIMAL | FEASIBLE => true | _ => false end.

Definition make_entry (d s : string) (emp : Employee) (task : Task) : Entry :=
  {| day := d; shift := s;
     employee_id := emp_id emp; employee_name := emp_name emp;
     entry_task_id := task_id task; entry_task_name := task_name task |}.

Section Engine.
(** [CpSolver().Solve(model)] together with [solver.Value]: the status and
    the value of every variable.  No limit is set on the solver.  One [Solve]
    stands for one call of the engine: between calls the engine is free in
    how it breaks ties, so what is said of two runs is said with two
    engines. *)
Variable Solve : CpModel → CpSolverStatus * (Var → Z).

Section Run.
Variables (employees : list Employee) (tasks : list Task).
Variables (days shifts : list string).
Variables (preferences : gmap (Z * Z) Z) (rules : gmap string Z).

Definition extract_schedule (value : Var → Z) : list Entry :=
  d ← days; s ← shifts; emp ← employees; task ← tasks;
  if value (key emp d s task) =? 1 then [make_entry d s emp task] else [].

Definition generate_schedule : list Entry * list Task :=
  let model := build_model employees tasks days shifts preferences rules in
  let '(status, value) := Solve model in
  if accepted status then
    let schedule := extract_schedule value in
    let assigned_task_ids : gset Z := list_to_set (entry_task_id <$> schedule) in
    let all_task_ids : gset Z := list_to_set (task_id <$> tasks) in
    let unscheduled_task_ids := all_task_ids ∖ assigned_task_ids in
    let unscheduled_tasks :=
      filter (λ t, task_id t ∈ unscheduled_task_ids) tasks in
    (schedule, unscheduled_tasks)
  else ([], tasks).
End Run.
End Engine.

(** ** What the properties are stated with *)

(** The bound of a weekly-cap constraint. *)
Definition cap_of (c : Constraint) : option Z :=
  match c with AddSumLe _ bound => Some bound | _ => None end.

Definition cap_bounds (m : CpModel) : list Z := omap cap_of (constraints m).

(** A task that breaks the data model: no required skill, or a negative
    priority. *)
Definition malformed (task : Task) : Prop :=
  required_skill task = ""%string ∨ priority task < 0.

(** Every candidate placement in the extractor's loop order: day, then shift,
    then employee, then task. *)
Definition grid_order (employees : list Employee) (tasks : list Task)
    (days shifts : list string) : list Entry :=
  d ← days; s ← shifts; emp ← employees; task ← tasks; [make_entry d s emp task].

(** An employee without the unavailable days that are not on the grid. *)
Definition drop_out_of_grid (days : list string) (emp : Employee) : Employee :=
  {| emp_id := emp_id emp; emp_name := emp_name emp; skills := skills emp;
     unavailable_days := filter (λ d, d ∈ days) (unavailable_days emp) |}.

(** The contribution of one iteration of the extractor's loops to the number
    of entries that satisfy [P]. *)
Definition counted (value : Var → Z) (P : Entry → Prop)
    `{!∀ e, Decision (P e)}
    (emp : Employee) (d s : string) (task : Task) : Z :=
  if bool_decide (value (key emp d s task) = 1 ∧ P (make_entry d s emp task))
  then 1 else 0.

(** The objective value of a returned schedule: every entry counts the
    priority of its task and the preference score of its (employee id,
    task id) pair, as in the maximised sum. *)
Definition priority_of (tasks : list Task) (tid : Z) : Z :=
  match find (λ t, task_id t =? tid) tasks with
  | Some t => priority t
  | None => 0
  end.

Definition entry_score (tasks : list Task) (preferences : gmap (Z * Z) Z)
    (entry : Entry) : Z :=
  priority_of tasks (entry_task_id entry)
  + default 0 (preferences !! (employee_id entry, entry_task_id entry)).

Definition achieved_objective (tasks : list Task)
    (preferences : gmap (Z * Z) Z) (schedule : list Entry) : Z :=
  zsum (entry_score tasks preferences <$> schedule).

(** *** The engine's contract on one model

    [solver_sound]: an accepted status comes with values that satisfy the
    model.  [cp_sat_contract] adds what a search without limits gives: a model
    that has a solution is solved to optimality. *)
Definition solver_sound (Solve : CpModel → CpSolverStatus * (Var → Z))
    (m : CpModel) : Prop :=
  accepted (Solve m).1 = true → feasible (Solve m).2 m = true.

Definition solver_optimal (Solve : CpModel → CpSolverStatus * (Var → Z))
    (m : CpModel) : Prop :=
  (Solve m).1 = OPTIMAL →
  ∀ value', feasible value' m = true →
    objective_value value' m ≤ objective_value (Solve m).2 m.

Definition solver_complete (Solve : CpModel → CpSolverStatus * (Var → Z))
    (m : CpModel) : Prop :=
  (∃ value', feasible value' m = true) → (Solve m).1 = OPTIMAL.

Definition cp_sat_contract (Solve : CpModel → CpSolverStatus * (Var → Z))
    (m : CpModel) : Prop :=
  solver_sound Solve m ∧ solver_optimal Solve m ∧ solver_complete Solve m.

(** ** The routes of [src/app.py] around the solver

    [get_solver_data] reads the tables into the dictionaries above.  The
    LearnedPreference table has one row per (employee id, task id) pair (its
    unique constraint), so it is the map that line 105 makes of it; the
    stored 'max_shifts_per_week' rule is taken as the integer that [int]
    reads from it. *)

(** Line 102: the rules handed to the solver. *)
Definition rules_dict (max_shifts_rule : option Z) : gmap string Z :=
  {[ "max_shifts_per_week"%string :=
       match max_shifts_rule with Some v => v | None => 7 end ]}.

(** [update_assignment], lines 279-287: the planner moves task [tid] to
    employee [new_employee_id]. *)
Definition update_assignment (learned : gmap (Z * Z) Z)
    (tid new_employee_id : Z) : gmap (Z * Z) Z :=
  match learned !! (new_employee_id, tid) with
  | Some score => <[(new_employee_id, tid) := score + 1]> learned
  | None => <[(new_employee_id, tid) := 1]> learned
  end.

(** [collections.Counter] over a list of names. *)
Definition Counter (items : list string) : gmap string nat :=
  foldl (λ counts item, <[item := S (default 0%nat (counts !! item))]> counts)
        ∅ items.

(** What [dashboard] (lines 138-149) hands to its template. *)
Record DashboardView := mkDashboardView {
  view_schedule : list Entry;
  utilization : gmap string nat;
  employees_on_leave : list Employee;
  task_count_scheduled : nat;
  task_count_unscheduled : nat
}.

Definition dashboard (Solve : CpModel → CpSolverStatus * (Var → Z))
    (employees_dict : list Employee) (tasks_dict : list Task)
    (preferences_dict : gmap (Z * Z) Z) (days shifts : list string)
    (rules : gmap string Z) : DashboardView :=
  let '(schedule_result, unscheduled_tasks) :=
    generate_schedule Solve employees_dict tasks_dict days shifts
      preferences_dict rules in
  let utilization_counts : gmap string nat :=
    match schedule_result with
    | [] => ∅
    | _ => Counter (employee_name <$> schedule_result)
    end in
  let utilization_counts :=
    foldl (λ counts emp,
             match counts !! emp_name emp with
             | Some _ => counts
             | None => <[emp_name emp := 0%nat]> counts
             end)
          utilization_counts employees_dict in
  {| view_schedule := schedule_result;
     utilization := utilization_counts;
     employees_on_leave :=
       filter (λ emp, unavailable_days emp ≠ []) employees_dict;
     task_count_scheduled :=
       match schedule_result with [] => 0%nat | _ => length schedule_result end;
     task_count_unscheduled := length unscheduled_tasks |}.

(** The sum of the figures of a utilization table. *)
Definition utilization_total (counts : gmap string nat) : nat :=
  map_fold (λ _ count total, (count + total)%nat) 0%nat counts.

(** *** Sample data *)

Definition ann : Employee := mkEmployee 1 "Ann" ["A"%string] [].
Definition stock : Task := mkTask 1 "Stock" "A" 1.
Definition audit : Task := mkTask 2 "Audit" "" (-1).
Definition cap7 : gmap string Z := {[ "max_shifts_per_week"%string := 7 ]}.

(** No preferences, and the score of (Ann, Stock) raised by 1. *)
Definition raised : gmap (Z * Z) Z :=
  <[(1, 1) := default 0 ((∅ : gmap (Z * Z) Z) !! (1, 1)) + 1]> ∅.

(** A value function that sets exactly one variable. *)
Definition only (k : Var) : Var → Z := λ x, if bool_decide (x = k) then 1 else 0.

(** Nothing placed, and every variable of Monday morning set. *)
Definition nothing : Var → Z := λ _, 0.
Definition monday_morning : Var → Z :=
  λ x, if (String.eqb x.1.1.2 "Mon" && String.eqb x.1.2 "Morning")%bool
       then 1 else 0.

(** An engine that answers every model with an optimal status and no
    placement. *)
Definition idle_engine (m : CpModel) : CpSolverStatus * (Var → Z) :=
  (OPTIMAL, nothing).

(** An engine that answers every model with the same optimal status and the
    same single placement. *)
Definition monday_engine (m : CpModel) : CpSolverStatus * (Var → Z) :=
  (OPTIMAL, only (1, "Mon", "Morning", 1)%string).

(** A second employee, and an engine that gives Ann the stock task on Monday
    morning and Bob the audit on Tuesday evening. *)
Definition bob : Employee := mkEmployee 2 "Bob" [""%string; "B"%string] ["Mon"%string].
Definition two_engine (m : CpModel) : CpSolverStatus * (Var → Z) :=
  (FEASIBLE,
   λ x, if bool_decide (x = (1, "Mon", "Morning", 1)%string
                        ∨ x = (2, "Tue", "Evening", 2)%string)
        then 1 else 0).

(** A cap of 0, and an engine that places nothing under that cap and the
    Monday morning placement otherwise. *)
Definition cap0 : gmap string Z := {[ "max_shifts_per_week"%string := 0 ]}.
Definition cap_engine (m : CpModel) : CpSolverStatus * (Var → Z) :=
  (OPTIMAL,
   if bool_decide (cap_bounds m = [0]) then nothing
   else only (1, "Mon", "Morning", 1)%string).

(** Ann with an unavailable day that is not on the grid, and an engine that
    places the task on Sunday evening. *)
Definition ann_on_holiday : Employee :=
  mkEmployee 1 "Ann" ["A"%string] ["Holiday"%string].
Definition sunday_engine (m : CpModel) : CpSolverStatus * (Var → Z) :=
  (OPTIMAL, only (1, "Sun", "Evening", 1)%string).

(** *** The definitions at work *)

Example run_of_monday_engine :
  generate_schedule monday_engine [ann] [stock] DAYS SHIFTS ∅ cap7
  = ([make_entry "Mon" "Morning" ann stock], []).
Proof. vm_compute. reflexivity. Qed.

Example run_of_rejecting_engine :
  generate_schedule (λ _, (INFEASIBLE, nothing)) [ann] [stock; audit]
    DAYS SHIFTS ∅ cap7
  = ([], [stock; audit]).
Proof. reflexivity. Qed.

Example max_shifts_unset : max_shifts ∅ = 7.
Proof. reflexivity. Qed.

Example max_shifts_set : max_shifts {[ "max_shifts_per_week"%string := 3 ]} = 3.
Proof. reflexivity. Qed.

Example holiday_dropped :
  unavailable_days
    (drop_out_of_grid DAYS (mkEmployee 2 "Bob" ["B"%string]
                              ["Mon"; "Holiday"; "Sun"]%string))
  = ["Mon"; "Sun"]%string.
Proof. vm_compute. reflexivity. Qed.

Example model_size :
  let m := build_model [ann] [stock; audit] DAYS SHIFTS ∅ cap7 in
  (length (variables m), length (constraints m), length (objective m))
  = (28, 31, 56)%nat.
Proof. vm_compute. reflexivity. Qed.

Example dashboard_of_two :
  let view := dashboard two_engine [ann; bob] [stock; audit] ∅ DAYS SHIFTS
                (rules_dict None) in
  (utilization view !! "Ann"%string, utilization view !! "Bob"%string,
   employee_name <$> view_schedule view, emp_name <$> employees_on_leave view,
   task_count_scheduled view, task_count_unscheduled view)
  = (Some 1%nat, Some 1%nat, ["Ann"; "Bob"]%string, ["Bob"%string],
     2%nat, 0%nat).
Proof. vm_compute. reflexivity. Qed.

Example update_assignment_twice :
  update_assignment (update_assignment ∅ 1 2) 1 2 !! (2, 1) = Some 2.
Proof. vm_compute. reflexivity. Qed.

(** ** Sums and nested loops *)

Section Sums.
Context {A : Type}.

Lemma zsum_cons (x : Z) (l : list Z) : zsum (x :: l) = x + zsum l.
Proof. reflexivity. Qed.

Lemma zsum_app (l k : list Z) : zsum (l ++ k) = zsum l + zsum k.
Proof.
  induction l as [|x l IH]; [done|].
  rewrite <- app_comm_cons, !zsum_cons, IH. lia.
Qed.

Lemma zsum_le (f g : A → Z) (l : list A) :
  (∀ x, x ∈ l → f x ≤ g x) → zsum (f <$> l) ≤ zsum (g <$> l).
Proof.
  induction l as [|x l IH]; intros H; [done|].
  rewrite !fmap_cons, !zsum_cons.
  pose proof (H x (list_elem_of_here x l)).
  assert (zsum (f <$> l) ≤ zsum (g <$> l)).
  { apply IH. intros y Hy. apply H. by right. }
  lia.
Qed.

Lemma zsum_ext (f g : A → Z) (l : list A) :
  (∀ x, x ∈ l → f x = g x) → zsum (f <$> l) = zsum (g <$> l).
Proof.
  intros H. apply Z.le_antisymm; apply zsum_le; intros x Hx;
    rewrite (H x Hx); lia.
Qed.

Lemma zsum_nonneg (f : A → Z) (l : list A) :
  (∀ x, x ∈ l → 0 ≤ f x) → 0 ≤ zsum (f <$> l).
Proof.
  intros H. transitivity (zsum ((λ _, 0) <$> l)).
  - clear H. induction l as [|x l IH]; [done|].
    rewrite fmap_cons, zsum_cons. lia.
  - by apply zsum_le.
Qed.

Lemma zsum_elem_le (f : A → Z) (l : list A) (x : A) :
  (∀ y, y ∈ l → 0 ≤ f y) → x ∈ l → f x ≤ zsum (f <$> l).
Proof.
  intros Hpos Hx.
  induction Hx as [x l|x y l Hx IH]; rewrite fmap_cons, zsum_cons.
  - assert (0 ≤ zsum (f <$> l)); [|lia].
    apply zsum_nonneg. intros z Hz. apply Hpos. by right.
  - assert (f x ≤ zsum (f <$> l)).
    { apply IH. intros z Hz. apply Hpos. by right. }
    pose proof (Hpos y (list_elem_of_here y l)). lia.
Qed.

Lemma zsum_plus (f g : A → Z) (l : list A) :
  zsum ((λ x, f x + g x) <$> l) = zsum (f <$> l) + zsum (g <$> l).
Proof.
  induction l as [|x l IH]; [done|].
  rewrite !fmap_cons, !zsum_cons, IH. lia.
Qed.


Lemma filter_all (P : A → Prop) `{!∀ x, Decision (P x)} (l : list A) :
  (∀ x, x ∈ l → P x) → filter P l = l.
Proof.
  induction l as [|x l IH]; intros Hall; [done|].
  rewrite filter_cons, decide_True; [|apply Hall; by left].
  f_equal. apply IH. intros y Hy. apply Hall. by right.
Qed.
End Sums.

Section Loops.
Context {A B : Type}.

Lemma zsum_bind (g : B → Z) (f : A → list B) (l : list A) :
  zsum (g <$> (l ≫= f)) = zsum ((λ x, zsum (g <$> f x)) <$> l).
Proof.
  induction l as [|x l IH]; [done|].
  rewrite bind_cons, fmap_app, zsum_app, IH. done.
Qed.

Lemma zsum_swap (f : A → B → Z) (l : list A) (k : list B) :
  zsum ((λ x, zsum (f x <$> k)) <$> l)
  = zsum ((λ y, zsum ((λ x, f x y) <$> l)) <$> k).
Proof.
  induction l as [|x l IH].
  - induction k as [|y k IH]; [done|].
    rewrite fmap_cons, zsum_cons, <- IH. done.
  - rewrite fmap_cons, zsum_cons, IH.
    rewrite <- (zsum_plus (f x) (λ y, zsum ((λ x', f x' y) <$> l))).
    apply zsum_ext. intros y _. by rewrite fmap_cons, zsum_cons.
Qed.

Lemma length_filter_bind (P : B → Prop) `{!∀ y, Decision (P y)}
    (f : A → list B) (l : list A) :
  Z.of_nat (length (filter P (l ≫= f)))
  = zsum ((λ x, Z.of_nat (length (filter P (f x)))) <$> l).
Proof.
  induction l as [|x l IH]; [done|].
  rewrite bind_cons, filter_app, length_app, Nat2Z.inj_add, IH. done.
Qed.

Lemma bind_sublist_pointwise (f g : A → list B) (l : list A) :
  (∀ x, f x `sublist_of` g x) → l ≫= f `sublist_of` l ≫= g.
Proof.
  intros H. induction l as [|x l IH]; [done|].
  rewrite !bind_cons. by apply sublist_app.
Qed.

Lemma bind_filter_guard (P : A → Prop) `{!∀ x, Decision (P x)}
    (f : A → list B) (l : list A) :
  filter P l ≫= (λ x, if bool_decide (P x) then f x else [])
  = l ≫= (λ x, if bool_decide (P x) then f x else []).
Proof.
  induction l as [|x l IH]; [done|].
  rewrite filter_cons. destruct (decide (P x)) as [HP|HP].
  - by rewrite !bind_cons, IH.
  - rewrite bind_cons, IH. by rewrite (bool_decide_eq_false_2 _ HP).
Qed.

Lemma omap_all_None (h : A → option B) (l : list A) :
  (∀ x, x ∈ l → h x = None) → omap h l = [].
Proof.
  induction l as [|x l IH]; intros H; [done|]. simpl.
  rewrite (H x (list_elem_of_here x l)). apply IH.
  intros y Hy. apply H. by right.
Qed.
End Loops.

(** ** The model builder *)

Ltac unbind H :=
  repeat (apply list_elem_of_bind in H; destruct H as (? & H & ?)).

Section BuilderFacts.
Variables (employees : list Employee) (tasks : list Task).
Variables (days shifts : list string).
Variables (preferences : gmap (Z * Z) Z) (rules : gmap string Z).

Lemma cap_of_task_constraints c :
  c ∈ task_constraints employees tasks days shifts → cap_of c = None.
Proof. intros H. unbind H. by apply list_elem_of_singleton in H as ->. Qed.

Lemma cap_of_skill_constraints c :
  c ∈ skill_constraints employees tasks days shifts → cap_of c = None.
Proof.
  intros H. unbind H. destruct (has_skill _ _); [by inv H|].
  by apply list_elem_of_singleton in H as ->.
Qed.

Lemma cap_of_availability_constraints c :
  c ∈ availability_constraints employees tasks days shifts → cap_of c = None.
Proof.
  intros H. unbind H. destruct (bool_decide _); [|by inv H].
  unbind H. by apply list_elem_of_singleton in H as ->.
Qed.

Lemma cap_of_slot_constraints c :
  c ∈ slot_constraints employees tasks days shifts → cap_of c = None.
Proof. intros H. unbind H. by apply list_elem_of_singleton in H as ->. Qed.

Lemma cap_bounds_build_model :
  cap_bounds (build_model employees tasks days shifts preferences rules)
  = replicate (length employees) (max_shifts rules).
Proof.
  unfold cap_bounds, build_model, constraints. rewrite !omap_app.
  rewrite (omap_all_None _ _ cap_of_task_constraints).
  rewrite (omap_all_None _ _ cap_of_skill_constraints).
  rewrite (omap_all_None _ _ cap_of_availability_constraints).
  rewrite (omap_all_None _ _ cap_of_slot_constraints).
  rewrite !app_nil_l. unfold cap_constraints.
  induction employees as [|emp emps IH]; [done|].
  rewrite bind_cons, omap_app, IH. done.
Qed.

Lemma length_create_variables :
  length (create_variables employees tasks days shifts)
  = (length employees * (length days * (length shifts * length tasks)))%nat.
Proof.
  unfold create_variables.
  assert (Hbind : ∀ {X Y} (l : list X) (f : X → list Y) n,
    (∀ x, length (f x) = n) → length (l ≫= f) = (length l * n)%nat).
  { intros X Y l f n Hf. induction l as [|x l IH]; [done|].
    rewrite bind_cons, length_app, Hf, IH. simpl. lia. }
  apply Hbind. intros emp. apply Hbind. intros d. apply Hbind. intros s.
  rewrite (Hbind _ _ _ _ 1%nat); [lia|done].
Qed.
End BuilderFacts.

(** C1 (as stated, refuted).  With no 'max_shifts_per_week' entry in the rules
    and the fixed 7-day, 2-shift grid, the cap put on the single employee is
    not the number of slots of the week. *)
Lemma C1_cap_is_not_slot_count :
  (∅ : gmap string Z) !! "max_shifts_per_week"%string = None ∧
  cap_bounds (build_model [ann] [stock] DAYS SHIFTS ∅ ∅)
    ≠ replicate 1 (Z.of_nat (length DAYS * length SHIFTS)).
Proof. split; [reflexivity|]. vm_compute. discriminate. Qed.

(** C1 (amended).  If the rules map has no 'max_shifts_per_week' entry, the
    model holds one weekly-cap constraint per employee and each of them has
    the bound 7, whatever the size of the grid. *)
Theorem C1_default_weekly_cap employees tasks days shifts preferences
    (rules : gmap string Z) :
  rules !! "max_shifts_per_week"%string = None →
  cap_bounds (build_model employees tasks days shifts preferences rules)
  = replicate (length employees) 7.
Proof.
  intros Hnone. rewrite cap_bounds_build_model.
  unfold max_shifts. by rewrite Hnone.
Qed.

Lemma C1_default_weekly_cap_witness :
  (∅ : gmap string Z) !! "max_shifts_per_week"%string = None ∧
  cap_bounds (build_model [ann] [stock] DAYS SHIFTS ∅ ∅) = replicate 1 7.
Proof.
  split; [reflexivity|].
  apply (C1_default_weekly_cap [ann] [stock] DAYS SHIFTS ∅ ∅). reflexivity.
Defined.

(** C2 (as stated, refuted).  A task list whose only task has no required
    skill and a negative priority is not rejected before the variables are
    created: the builder creates the 14 variables of the grid for it, the
    engine is asked, and the run returns a result as for any other input. *)
Lemma C2_malformed_task_gets_variables :
  malformed audit ∧
  length (variables (build_model [ann] [audit] DAYS SHIFTS ∅ cap7)) = 14%nat ∧
  solver_sound idle_engine (build_model [ann] [audit] DAYS SHIFTS ∅ cap7) ∧
  generate_schedule idle_engine [ann] [audit] DAYS SHIFTS ∅ cap7
  = ([], [audit]).
Proof.
  split; [by left|]. split; [reflexivity|]. split; [by intros _|].
  vm_compute. reflexivity.
Qed.

(** ** The extractor *)

Section ExtractorFacts.
Variable Solve : CpModel → CpSolverStatus * (Var → Z).
Variables (employees : list Employee) (tasks : list Task).
Variables (days shifts : list string).
Variables (preferences : gmap (Z * Z) Z) (rules : gmap string Z).

Lemma elem_of_extract_schedule value entry :
  entry ∈ extract_schedule employees tasks days shifts value ↔
  ∃ d s emp task,
    d ∈ days ∧ s ∈ shifts ∧ emp ∈ employees ∧ task ∈ tasks ∧
    value (key emp d s task) = 1 ∧ entry = make_entry d s emp task.
Proof.
  unfold extract_schedule. split.
  - intros H.
    apply list_elem_of_bind in H as (d & H & Hd).
    apply list_elem_of_bind in H as (s & H & Hs).
    apply list_elem_of_bind in H as (emp & H & He).
    apply list_elem_of_bind in H as (task & H & Ht).
    destruct (Z.eqb_spec (value (key emp d s task)) 1) as [Hv|Hv];
      [|by inv H].
    apply list_elem_of_singleton in H as ->. by exists d, s, emp, task.
  - intros (d & s & emp & task & Hd & Hs & He & Ht & Hv & ->).
    apply list_elem_of_bind. exists d. split; [|done].
    apply list_elem_of_bind. exists s. split; [|done].
    apply list_elem_of_bind. exists emp. split; [|done].
    apply list_elem_of_bind. exists task. split; [|done].
    rewrite Hv. simpl. by left.
Qed.

Lemma extract_schedule_sublist value :
  extract_schedule employees tasks days shifts value
    `sublist_of` grid_order employees tasks days shifts.
Proof.
  unfold extract_schedule, grid_order.
  apply bind_sublist_pointwise. intros d.
  apply bind_sublist_pointwise. intros s.
  apply bind_sublist_pointwise. intros emp.
  apply bind_sublist_pointwise. intros task.
  destruct (_ =? _); [done|]. apply sublist_nil_l.
Qed.
End ExtractorFacts.

(** C6.  The task ids of the returned schedule and those of the returned
    unscheduled list are disjoint and together are all the task ids of the
    input; when the engine's status is neither OPTIMAL nor FEASIBLE the
    schedule is empty and the unscheduled list is the whole task list. *)
Theorem C6_partition Solve employees tasks days shifts preferences rules :
  let result :=
    generate_schedule Solve employees tasks days shifts preferences rules in
  let placed : gset Z := list_to_set (entry_task_id <$> result.1) in
  let unscheduled : gset Z := list_to_set (task_id <$> result.2) in
  placed ## unscheduled ∧
  placed ∪ unscheduled = list_to_set (task_id <$> tasks) ∧
  (accepted
     (Solve (build_model employees tasks days shifts preferences rules)).1
   = false → result = ([], tasks)).
Proof.
  unfold generate_schedule.
  destruct (Solve _) as [status value]. simpl.
  destruct (accepted status); simpl.
  - assert (Hsub : ∀ tid,
      tid ∈ entry_task_id <$>
        extract_schedule employees tasks days shifts value →
      tid ∈ task_id <$> tasks).
    { intros tid (entry & -> & Hin)%list_elem_of_fmap.
      apply elem_of_extract_schedule in Hin
        as (d & s & emp & task & _ & _ & _ & Ht & _ & ->).
      apply list_elem_of_fmap. by exists task. }
    split; [|split; [|done]].
    + intros tid Hp Hu.
      apply elem_of_list_to_set, list_elem_of_fmap in Hu as (t & -> & Ht).
      apply list_elem_of_filter in Ht as [Ht _].
      apply elem_of_difference in Ht as [_ Ht]. done.
    + apply set_eq. intros tid.
      rewrite elem_of_union, !elem_of_list_to_set. split.
      * intros [Hp|Hu]; [by apply Hsub|].
        apply list_elem_of_fmap in Hu as (t & -> & Ht).
        apply list_elem_of_filter in Ht as [_ Ht].
        apply list_elem_of_fmap. by exists t.
      * intros Hall.
        destruct (decide (tid ∈ entry_task_id <$>
          extract_schedule employees tasks days shifts value)) as [Hp|Hp];
          [by left|right].
        apply list_elem_of_fmap in Hall as (t & -> & Ht).
        apply list_elem_of_fmap. exists t. split; [done|].
        apply list_elem_of_filter. split; [|done].
        apply elem_of_difference. rewrite !elem_of_list_to_set. split; [|done].
        apply list_elem_of_fmap. by exists t.
  - split; [apply disjoint_empty_l|split; [|done]].
    by rewrite (left_id_L ∅ (∪)).
Qed.

(** C7.  The returned schedule keeps the order of the extractor's loops, day
    first, then shift, then employee, then task, each in the order of its
    input sequence: it is a subsequence of the grid enumerated in that order.
    The unscheduled list is a subsequence of the input task list. *)
Theorem C7_output_order Solve employees tasks days shifts preferences rules :
  let result :=
    generate_schedule Solve employees tasks days shifts preferences rules in
  result.1 `sublist_of` grid_order employees tasks days shifts ∧
  result.2 `sublist_of` tasks.
Proof.
  unfold generate_schedule.
  destruct (Solve _) as [status value]. simpl.
  destruct (accepted status); simpl.
  - split; [apply extract_schedule_sublist|apply sublist_filter].
  - split; [apply sublist_nil_l|done].
Qed.

(** ** Unavailable days that are not on the grid *)

Section OutOfGrid.
Variables (employees : list Employee) (tasks : list Task).
Variables (days shifts : list string).
Variables (preferences : gmap (Z * Z) Z) (rules : gmap string Z).

Let trimmed : list Employee := drop_out_of_grid days <$> employees.

Lemma availability_constraints_trimmed :
  availability_constraints trimmed tasks days shifts
  = availability_constraints employees tasks days shifts.
Proof.
  unfold availability_constraints, trimmed. rewrite list_fmap_bind.
  apply list_bind_ext; [|done]. intros emp. simpl.
  apply (bind_filter_guard (λ d, d ∈ days)
           (λ d, s ← shifts; task ← tasks; [AddEqZero (key emp d s task)])).
Qed.

Lemma task_constraints_trimmed :
  task_constraints trimmed tasks days shifts
  = task_constraints employees tasks days shifts.
Proof.
  unfold task_constraints, trimmed.
  apply list_bind_ext; [|done]. intros task. by rewrite list_fmap_bind.
Qed.

Lemma build_model_trimmed :
  build_model trimmed tasks days shifts preferences rules
  = build_model employees tasks days shifts preferences rules.
Proof.
  unfold build_model.
  rewrite availability_constraints_trimmed, task_constraints_trimmed.
  unfold create_variables, skill_constraints, slot_constraints,
    cap_constraints, objective_terms, trimmed.
  by rewrite !list_fmap_bind.
Qed.

Lemma extract_schedule_trimmed value :
  extract_schedule trimmed tasks days shifts value
  = extract_schedule employees tasks days shifts value.
Proof.
  unfold extract_schedule, trimmed.
  apply list_bind_ext; [|done]. intros d.
  apply list_bind_ext; [|done]. intros s. by rewrite list_fmap_bind.
Qed.
End OutOfGrid.

(** ** What a feasible value function satisfies *)

Lemma feasible_is_bool value m x :
  feasible value m = true → x ∈ variables m → value x = 0 ∨ value x = 1.
Proof.
  unfold feasible. intros [Hb _]%andb_prop Hx.
  rewrite forallb_forall in Hb.
  specialize (Hb x (proj1 (list_elem_of_In _ _) Hx)).
  unfold is_bool in Hb. apply orb_prop in Hb. lia.
Qed.

Lemma feasible_holds value m c :
  feasible value m = true → c ∈ constraints m → holds value c = true.
Proof.
  unfold feasible. intros [_ Hc]%andb_prop Hin.
  rewrite forallb_forall in Hc. apply Hc. by apply list_elem_of_In.
Qed.

Lemma zsum_bind_singleton {A B} (g : B → Z) (h : A → B) (l : list A) :
  zsum (g <$> (l ≫= λ x, [h x])) = zsum ((λ x, g (h x)) <$> l).
Proof.
  rewrite zsum_bind. apply zsum_ext. intros x _.
  rewrite list_fmap_singleton, zsum_cons. simpl. lia.
Qed.

Section ModelFacts.
Variables (employees : list Employee) (tasks : list Task).
Variables (days shifts : list string).
Variables (preferences : gmap (Z * Z) Z) (rules : gmap string Z).
Variable value : Var → Z.

Let model := build_model employees tasks days shifts preferences rules.

Hypothesis Hfeasible : feasible value model = true.

Lemma in_create_variables emp d s task :
  emp ∈ employees → d ∈ days → s ∈ shifts → task ∈ tasks →
  key emp d s task ∈ create_variables employees tasks days shifts.
Proof.
  intros He Hd Hs Ht. unfold create_variables.
  apply list_elem_of_bind. exists emp. split; [|done].
  apply list_elem_of_bind. exists d. split; [|done].
  apply list_elem_of_bind. exists s. split; [|done].
  apply list_elem_of_bind. exists task. split; [|done]. by left.
Qed.

Lemma value_is_bool emp d s task :
  emp ∈ employees → d ∈ days → s ∈ shifts → task ∈ tasks →
  value (key emp d s task) = 0 ∨ value (key emp d s task) = 1.
Proof.
  intros He Hd Hs Ht. apply (feasible_is_bool value model); [done|].
  by apply in_create_variables.
Qed.

Lemma skill_gate emp d s task :
  emp ∈ employees → d ∈ days → s ∈ shifts → task ∈ tasks →
  required_skill task ∉ skills emp → value (key emp d s task) = 0.
Proof.
  intros He Hd Hs Ht Hskill.
  assert (Hc : AddEqZero (key emp d s task) ∈ constraints model).
  { unfold model, build_model, constraints.
    apply elem_of_app. right. apply elem_of_app. left.
    unfold skill_constraints.
    apply list_elem_of_bind. exists emp. split; [|done].
    apply list_elem_of_bind. exists d. split; [|done].
    apply list_elem_of_bind. exists s. split; [|done].
    apply list_elem_of_bind. exists task. split; [|done].
    unfold has_skill. rewrite (bool_decide_eq_false_2 _ Hskill). by left. }
  apply (feasible_holds _ _ _ Hfeasible) in Hc. simpl in Hc. lia.
Qed.

Lemma availability_gate emp d s task :
  emp ∈ employees → d ∈ days → s ∈ shifts → task ∈ tasks →
  d ∈ unavailable_days emp → value (key emp d s task) = 0.
Proof.
  intros He Hd Hs Ht Hoff.
  assert (Hc : AddEqZero (key emp d s task) ∈ constraints model).
  { unfold model, build_model, constraints.
    apply elem_of_app. right. apply elem_of_app. right.
    apply elem_of_app. left. unfold availability_constraints.
    apply list_elem_of_bind. exists emp. split; [|done].
    apply list_elem_of_bind. exists d. split; [|done].
    rewrite (bool_decide_eq_true_2 _ Hd).
    apply list_elem_of_bind. exists s. split; [|done].
    apply list_elem_of_bind. exists task. split; [|done]. by left. }
  apply (feasible_holds _ _ _ Hfeasible) in Hc. simpl in Hc. lia.
Qed.

Lemma task_at_most_one task :
  task ∈ tasks →
  zsum ((λ emp, zsum ((λ d, zsum ((λ s,
    value (key emp d s task)) <$> shifts)) <$> days)) <$> employees) ≤ 1.
Proof.
  intros Ht.
  assert (Hc : AddAtMostOne
    (emp ← employees; d ← days; s ← shifts; [key emp d s task])
    ∈ constraints model).
  { unfold model, build_model, constraints.
    apply elem_of_app. left. unfold task_constraints.
    apply list_elem_of_bind. exists task. split; [|done]. by left. }
  apply (feasible_holds _ _ _ Hfeasible) in Hc. simpl in Hc.
  apply andb_prop in Hc as [_ Hc]. apply Z.leb_le in Hc.
  rewrite zsum_bind in Hc.
  erewrite zsum_ext in Hc; [exact Hc|]. intros emp _. simpl.
  rewrite zsum_bind. apply zsum_ext. intros d _. simpl.
  apply (zsum_bind_singleton value (λ s, key emp d s task)).
Qed.

Lemma slot_at_most_one emp d s :
  emp ∈ employees → d ∈ days → s ∈ shifts →
  zsum ((λ task, value (key emp d s task)) <$> tasks) ≤ 1.
Proof.
  intros He Hd Hs.
  assert (Hc : AddAtMostOne (task ← tasks; [key emp d s task])
    ∈ constraints model).
  { unfold model, build_model, constraints.
    do 3 (apply elem_of_app; right). apply elem_of_app. left.
    unfold slot_constraints.
    apply list_elem_of_bind. exists emp. split; [|done].
    apply list_elem_of_bind. exists d. split; [|done].
    apply list_elem_of_bind. exists s. split; [|done]. by left. }
  apply (feasible_holds _ _ _ Hfeasible) in Hc. simpl in Hc.
  apply andb_prop in Hc as [_ Hc]. apply Z.leb_le in Hc.
  by rewrite (zsum_bind_singleton value (λ task, key emp d s task)) in Hc.
Qed.

Lemma weekly_cap emp :
  emp ∈ employees →
  zsum ((λ d, zsum ((λ s, zsum ((λ task,
    value (key emp d s task)) <$> tasks)) <$> shifts)) <$> days)
  ≤ max_shifts rules.
Proof.
  intros He.
  assert (Hc : AddSumLe (total_shifts_for_employee tasks days shifts emp)
    (max_shifts rules) ∈ constraints model).
  { unfold model, build_model, constraints.
    do 4 (apply elem_of_app; right). unfold cap_constraints.
    apply list_elem_of_bind. exists emp. split; [|done]. by left. }
  apply (feasible_holds _ _ _ Hfeasible) in Hc. simpl in Hc.
  apply Z.leb_le in Hc. unfold total_shifts_for_employee in Hc.
  rewrite zsum_bind in Hc.
  erewrite zsum_ext in Hc; [exact Hc|]. intros d _. simpl.
  rewrite zsum_bind. apply zsum_ext. intros s _. simpl.
  apply (zsum_bind_singleton value (λ task, key emp d s task)).
Qed.
End ModelFacts.

(** ** Runs of [generate_schedule] *)

Section RunFacts.
Variable Solve : CpModel → CpSolverStatus * (Var → Z).
Variables (employees : list Employee) (tasks : list Task).
Variables (days shifts : list string).
Variables (preferences : gmap (Z * Z) Z) (rules : gmap string Z).

Let model := build_model employees tasks days shifts preferences rules.
Let run := generate_schedule Solve employees tasks days shifts preferences rules.

Lemma schedule_of_run :
  run.1 = if accepted (Solve model).1
          then extract_schedule employees tasks days shifts (Solve model).2
          else [].
Proof.
  unfold run, generate_schedule, model.
  destruct (Solve _) as [status value]. simpl. by destruct (accepted status).
Qed.

Lemma run_accepted :
  accepted (Solve model).1 = true →
  run =
    let schedule :=
      extract_schedule employees tasks days shifts (Solve model).2 in
    (schedule,
     filter (λ t, task_id t ∈
       (list_to_set (task_id <$> tasks) : gset Z)
         ∖ list_to_set (entry_task_id <$> schedule)) tasks).
Proof.
  unfold run, generate_schedule, model.
  destruct (Solve _) as [status value]. simpl. by intros ->.
Qed.

Lemma entry_of_run entry :
  solver_sound Solve model → entry ∈ run.1 →
  feasible (Solve model).2 model = true ∧
  ∃ d s emp task,
    d ∈ days ∧ s ∈ shifts ∧ emp ∈ employees ∧ task ∈ tasks ∧
    (Solve model).2 (key emp d s task) = 1 ∧ entry = make_entry d s emp task.
Proof.
  intros Hsound. rewrite schedule_of_run.
  destruct (accepted (Solve model).1) eqn:Hacc; [|by inv 1].
  intros Hin. split; [by apply Hsound|].
  by apply elem_of_extract_schedule.
Qed.
End RunFacts.

(** C2 (amended).  [generate_schedule] does not validate its tasks: for every
    input, malformed or not, the builder creates one decision variable per
    (employee, day, shift, task) quadruple, and the returned schedule is what
    the extractor reads off the engine's answer on the model built. *)
Theorem C2_no_validation Solve employees tasks days shifts preferences rules :
  let model := build_model employees tasks days shifts preferences rules in
  length (variables model)
  = (length employees * (length days * (length shifts * length tasks)))%nat ∧
  (generate_schedule Solve employees tasks days shifts preferences rules).1
  = if accepted (Solve model).1
    then extract_schedule employees tasks days shifts (Solve model).2
    else [].
Proof.
  split; [apply length_create_variables|apply schedule_of_run].
Qed.

(** C3.  Every entry of the returned schedule is made from an employee and a
    task of the input, and every employee and task of the input that carry
    the entry's ids are eligible: the task's required skill is among the
    employee's skills and the entry's day is not one of the employee's
    unavailable days. *)
Theorem C3_eligibility Solve employees tasks days shifts preferences rules entry :
  solver_sound Solve
    (build_model employees tasks days shifts preferences rules) →
  entry ∈ (generate_schedule Solve employees tasks days shifts
             preferences rules).1 →
  (∃ emp task, emp ∈ employees ∧ task ∈ tasks ∧
     entry = make_entry (day entry) (shift entry) emp task) ∧
  (∀ emp task, emp ∈ employees → task ∈ tasks →
     emp_id emp = employee_id entry → task_id task = entry_task_id entry →
     required_skill task ∈ skills emp ∧ day entry ∉ unavailable_days emp).
Proof.
  intros Hsound Hin.
  destruct (entry_of_run _ _ _ _ _ _ _ _ Hsound Hin)
    as (Hfeas & d & s & emp0 & task0 & Hd & Hs & He0 & Ht0 & Hv & ->).
  split; [by exists emp0, task0|].
  intros emp task He Ht Heid Htid. simpl in Heid, Htid |- *.
  assert (Hkey : key emp d s task = key emp0 d s task0).
  { unfold key. by rewrite Heid, Htid. }
  split.
  - destruct (decide (required_skill task ∈ skills emp)) as [|Hno]; [done|].
    pose proof (skill_gate _ _ _ _ _ _ _ Hfeas emp d s task He Hd Hs Ht Hno).
    rewrite Hkey in *. lia.
  - intros Hoff.
    pose proof (availability_gate _ _ _ _ _ _ _ Hfeas emp d s task
                  He Hd Hs Ht Hoff).
    rewrite Hkey in *. lia.
Qed.

Lemma C3_eligibility_witness :
  solver_sound monday_engine (build_model [ann] [stock] DAYS SHIFTS ∅ cap7) ∧
  make_entry "Mon" "Morning" ann stock
    ∈ (generate_schedule monday_engine [ann] [stock] DAYS SHIFTS ∅ cap7).1 ∧
  required_skill stock ∈ skills ann ∧
  day (make_entry "Mon" "Morning" ann stock) ∉ unavailable_days ann.
Proof.
  set (entry := make_entry "Mon" "Morning" ann stock).
  assert (Hsound : solver_sound monday_engine
            (build_model [ann] [stock] DAYS SHIFTS ∅ cap7)).
  { intros _. vm_compute. reflexivity. }
  assert (Hin : entry ∈
    (generate_schedule monday_engine [ann] [stock] DAYS SHIFTS ∅ cap7).1).
  { vm_compute. left. }
  split; [exact Hsound|]. split; [exact Hin|].
  apply (C3_eligibility monday_engine [ann] [stock] DAYS SHIFTS ∅ cap7 entry
           Hsound Hin).
  - left.
  - left.
  - reflexivity.
  - reflexivity.
Defined.

(** ** Counting the entries of a schedule *)

Lemma zsum_swap3 {A B C} (f : A → B → C → Z)
    (la : list A) (lb : list B) (lc : list C) :
  zsum ((λ b, zsum ((λ c, zsum ((λ a, f a b c) <$> la)) <$> lc)) <$> lb)
  = zsum ((λ a, zsum ((λ b, zsum ((λ c, f a b c) <$> lc)) <$> lb)) <$> la).
Proof.
  rewrite (zsum_swap (λ a b, zsum ((λ c, f a b c) <$> lc)) la lb).
  apply zsum_ext. intros b _.
  apply (zsum_swap (λ c a, f a b c) lc la).
Qed.

Lemma zsum_zero {A} (f : A → Z) (l : list A) :
  (∀ x, x ∈ l → f x = 0) → zsum (f <$> l) = 0.
Proof.
  intros H. rewrite (zsum_ext f (λ _, 0) l H).
  induction l as [|x l IH]; [done|].
  rewrite fmap_cons, zsum_cons, IH; [done|].
  intros y Hy. apply H. by right.
Qed.

Section Counting.
Variables (employees : list Employee) (tasks : list Task).
Variables (days shifts : list string).
Variables (preferences : gmap (Z * Z) Z) (rules : gmap string Z).
Variable value : Var → Z.

Let model := build_model employees tasks days shifts preferences rules.

Lemma count_entries (P : Entry → Prop) `{!∀ e, Decision (P e)} :
  Z.of_nat (length (filter P
    (extract_schedule employees tasks days shifts value)))
  = zsum ((λ d, zsum ((λ s, zsum ((λ emp, zsum ((λ task,
      counted value P emp d s task) <$> tasks)) <$> employees)) <$> shifts))
      <$> days).
Proof.
  unfold extract_schedule.
  rewrite length_filter_bind. apply zsum_ext. intros d _.
  rewrite length_filter_bind. apply zsum_ext. intros s _.
  rewrite length_filter_bind. apply zsum_ext. intros emp _.
  rewrite length_filter_bind. apply zsum_ext. intros task _.
  unfold counted.
  destruct (Z.eqb_spec (value (key emp d s task)) 1) as [Hv|Hv].
  - rewrite filter_cons, filter_nil.
    destruct (decide (P (make_entry d s emp task))) as [HP|HP].
    + by rewrite bool_decide_eq_true_2.
    + rewrite bool_decide_eq_false_2; [done|]. by intros [_ ?].
  - rewrite filter_nil, bool_decide_eq_false_2; [done|]. by intros [? _].
Qed.

Hypothesis Hfeasible : feasible value model = true.

Lemma value_nonneg emp d s task :
  emp ∈ employees → d ∈ days → s ∈ shifts → task ∈ tasks →
  0 ≤ value (key emp d s task).
Proof.
  intros He Hd Hs Ht.
  destruct (value_is_bool _ _ _ _ _ _ _ Hfeasible emp d s task He Hd Hs Ht);
    lia.
Qed.

Lemma counted_le_value (P : Entry → Prop) `{!∀ e, Decision (P e)}
    emp d s task :
  emp ∈ employees → d ∈ days → s ∈ shifts → task ∈ tasks →
  counted value P emp d s task ≤ value (key emp d s task).
Proof.
  intros He Hd Hs Ht. unfold counted. case_bool_decide as Hc.
  - destruct Hc as [-> _]. lia.
  - by apply value_nonneg.
Qed.

(** Within one slot of one employee, the entries of a task id are at most
    the value of that task's variable. *)
Lemma task_count_in_slot task0 emp d s :
  task0 ∈ tasks → emp ∈ employees → d ∈ days → s ∈ shifts →
  zsum ((λ task,
    counted value (λ entry, entry_task_id entry = task_id task0)
      emp d s task)
    <$> tasks)
  ≤ value (key emp d s task0).
Proof.
  intros Ht0 He Hd Hs.
  destruct (value_is_bool _ _ _ _ _ _ _ Hfeasible emp d s task0
              He Hd Hs Ht0) as [H0|H1].
  - rewrite zsum_zero; [lia|]. intros task Ht. unfold counted.
    rewrite bool_decide_eq_false_2; [done|]. simpl. intros [Hv Hid].
    unfold key in *. rewrite Hid in Hv. lia.
  - rewrite H1. etrans; [|by apply (slot_at_most_one _ _ _ _ _ _ _
      Hfeasible emp d s)].
    apply zsum_le. intros task Ht. by apply counted_le_value.
Qed.

Lemma task_count_le_one tid :
  (length (filter (λ entry, entry_task_id entry = tid)
     (extract_schedule employees tasks days shifts value)) ≤ 1)%nat.
Proof.
  destruct (filter _ _) as [|entry rest] eqn:Hfilter; [simpl; lia|].
  assert (Hin : entry ∈ filter (λ entry, entry_task_id entry = tid)
    (extract_schedule employees tasks days shifts value)).
  { rewrite Hfilter. by left. }
  apply list_elem_of_filter in Hin as [Hid Hin].
  apply elem_of_extract_schedule in Hin
    as (d0 & s0 & emp0 & task0 & _ & _ & _ & Ht0 & _ & ->).
  simpl in Hid. subst tid. rewrite <- Hfilter.
  apply Nat2Z.inj_le. rewrite count_entries.
  etrans; [|by apply (task_at_most_one _ _ _ _ _ _ _ Hfeasible task0)].
  rewrite <- (zsum_swap3 (λ emp d s, value (key emp d s task0))).
  apply zsum_le. intros d Hd. apply zsum_le. intros s Hs.
  apply zsum_le. intros emp He. by apply task_count_in_slot.
Qed.
(** Within one slot and for one task, the entries of an employee id are at
    most the value of that employee's variable. *)
Lemma employee_count_in_slot emp0 d s task :
  emp0 ∈ employees → d ∈ days → s ∈ shifts → task ∈ tasks →
  zsum ((λ emp,
    counted value (λ entry, employee_id entry = emp_id emp0)
      emp d s task)
    <$> employees)
  ≤ value (key emp0 d s task).
Proof.
  intros He0 Hd Hs Ht.
  destruct (value_is_bool _ _ _ _ _ _ _ Hfeasible emp0 d s task
              He0 Hd Hs Ht) as [H0|H1].
  - rewrite zsum_zero; [lia|]. intros emp He. unfold counted.
    rewrite bool_decide_eq_false_2; [done|]. simpl. intros [Hv Hid].
    unfold key in *. rewrite Hid in Hv. lia.
  - rewrite H1. etrans; [|by apply (task_at_most_one _ _ _ _ _ _ _
      Hfeasible task)].
    apply zsum_le. intros emp He.
    etrans; [by apply counted_le_value|].
    etrans; [apply (zsum_elem_le (λ s', value (key emp d s' task))
                      shifts s); [|done]|].
    { intros s' Hs'. by apply value_nonneg. }
    apply (zsum_elem_le
      (λ d', zsum ((λ s', value (key emp d' s' task)) <$> shifts)) days d);
      [|done].
    intros d' Hd'. apply zsum_nonneg. intros s' Hs'. by apply value_nonneg.
Qed.

Lemma employee_count_le_cap eid :
  0 ≤ max_shifts rules →
  Z.of_nat (length (filter (λ entry, employee_id entry = eid)
    (extract_schedule employees tasks days shifts value)))
  ≤ max_shifts rules.
Proof.
  intros Hcap.
  destruct (filter _ _) as [|entry rest] eqn:Hfilter; [done|].
  assert (Hin : entry ∈ filter (λ entry, employee_id entry = eid)
    (extract_schedule employees tasks days shifts value)).
  { rewrite Hfilter. by left. }
  apply list_elem_of_filter in Hin as [Hid Hin].
  apply elem_of_extract_schedule in Hin
    as (d0 & s0 & emp0 & task0 & _ & _ & He0 & _ & _ & ->).
  simpl in Hid. subst eid. rewrite <- Hfilter, count_entries.
  etrans; [|by apply (weekly_cap _ _ _ _ _ _ _ Hfeasible emp0)].
  apply zsum_le. intros d Hd. apply zsum_le. intros s Hs.
  rewrite (zsum_swap
    (λ emp task,
       counted value (λ entry, employee_id entry = emp_id emp0)
        emp d s task)
    employees tasks).
  apply zsum_le. intros task Ht. by apply employee_count_in_slot.
Qed.
End Counting.

(** C4.  For every task id, and so for the id of every task of the input, the
    returned schedule holds at most one entry with that id: no task is split
    or duplicated. *)
Theorem C4_task_placed_at_most_once
    Solve employees tasks days shifts preferences rules tid :
  solver_sound Solve
    (build_model employees tasks days shifts preferences rules) →
  (length (filter (λ entry, entry_task_id entry = tid)
     (generate_schedule Solve employees tasks days shifts
        preferences rules).1) ≤ 1)%nat.
Proof.
  intros Hsound. rewrite schedule_of_run.
  destruct (accepted _) eqn:Hacc; [|simpl; lia].
  by apply (task_count_le_one _ _ _ _ preferences rules), Hsound.
Qed.

Lemma C4_task_placed_at_most_once_witness :
  solver_sound monday_engine (build_model [ann] [stock] DAYS SHIFTS ∅ cap7) ∧
  (length (filter (λ entry, entry_task_id entry = 1%Z)
     (generate_schedule monday_engine [ann] [stock] DAYS SHIFTS ∅ cap7).1)
   ≤ 1)%nat.
Proof.
  assert (Hsound : solver_sound monday_engine
            (build_model [ann] [stock] DAYS SHIFTS ∅ cap7)).
  { intros _. vm_compute. reflexivity. }
  split; [exact Hsound|].
  exact (C4_task_placed_at_most_once monday_engine [ann] [stock] DAYS SHIFTS
           ∅ cap7 1 Hsound).
Defined.



(** ** The objective of a returned schedule *)

Lemma zsum_two_le {A} (f : A → Z) (l : list A) (x y : A) :
  (∀ z, z ∈ l → 0 ≤ f z) → x ∈ l → y ∈ l → x ≠ y →
  f x + f y ≤ zsum (f <$> l).
Proof.
  intros Hpos Hx Hy Hne.
  apply list_elem_of_split in Hx as (l1 & l2 & ->).
  rewrite fmap_app, fmap_cons, zsum_app, zsum_cons.
  assert (Hy' : y ∈ l1 ++ l2).
  { apply elem_of_app. apply elem_of_app in Hy as [Hy|Hy]; [by left|].
    apply elem_of_cons in Hy as [Hy|Hy]; [congruence|by right]. }
  assert (Hle : f y ≤ zsum (f <$> l1 ++ l2)).
  { apply zsum_elem_le; [|done]. intros z Hz. apply Hpos.
    apply elem_of_app.
    apply elem_of_app in Hz as [Hz|Hz]; [by left|right; by right]. }
  rewrite fmap_app, zsum_app in Hle. lia.
Qed.

Section Objective.
Variables (employees : list Employee) (tasks : list Task).
Variables (days shifts : list string).
Variables (preferences : gmap (Z * Z) Z) (rules : gmap string Z).
Variable value : Var → Z.

Let model := build_model employees tasks days shifts preferences rules.

Hypothesis Hfeasible : feasible value model = true.

(** A placed task is the only task of the input with its id. *)
Lemma priority_of_placed emp d s task :
  emp ∈ employees → d ∈ days → s ∈ shifts → task ∈ tasks →
  value (key emp d s task) = 1 →
  priority_of tasks (task_id task) = priority task.
Proof.
  intros He Hd Hs Ht Hv. unfold priority_of.
  destruct (find _ tasks) as [task'|] eqn:Hfind.
  - apply find_some in Hfind as [Hin Hid].
    apply list_elem_of_In in Hin. apply Z.eqb_eq in Hid.
    destruct (decide (task' = task)) as [->|Hne]; [done|].
    pose proof (zsum_two_le (λ t, value (key emp d s t)) tasks task' task)
      as Htwo.
    pose proof (slot_at_most_one _ _ _ _ _ _ _ Hfeasible emp d s He Hd Hs).
    assert (value (key emp d s task') = 1).
    { unfold key in *. by rewrite Hid. }
    assert (value (key emp d s task') + value (key emp d s task)
            ≤ zsum ((λ t, value (key emp d s t)) <$> tasks)); [|lia].
    apply Htwo; [|done..]. intros t Hin'.
    by apply (value_nonneg employees tasks days shifts preferences rules
                value Hfeasible).
  - apply find_none with (x := task) in Hfind; [|by apply list_elem_of_In].
    simpl in Hfind. lia.
Qed.

(** A sum weighted by the variables, taken in the builder's loop order, is
    the sum of the scores of the extracted entries. *)
Lemma weighted_sum_extract (w : Employee → Task → Z) (score : Entry → Z) :
  (∀ emp d s task,
     emp ∈ employees → d ∈ days → s ∈ shifts → task ∈ tasks →
     value (key emp d s task) = 1 →
     score (make_entry d s emp task) = w emp task) →
  zsum ((λ emp, zsum ((λ d, zsum ((λ s, zsum ((λ task,
    value (key emp d s task) * w emp task) <$> tasks)) <$> shifts))
    <$> days)) <$> employees)
  = zsum (score <$> extract_schedule employees tasks days shifts value).
Proof.
  intros Hscore.
  rewrite <- (zsum_swap3 (λ emp d s, zsum ((λ task,
    value (key emp d s task) * w emp task) <$> tasks))).
  unfold extract_schedule.
  rewrite zsum_bind. apply zsum_ext. intros d Hd.
  rewrite zsum_bind. apply zsum_ext. intros s Hs.
  rewrite zsum_bind. apply zsum_ext. intros emp He.
  rewrite zsum_bind. apply zsum_ext. intros task Ht.
  destruct (Z.eqb_spec (value (key emp d s task)) 1) as [Hv|Hv].
  - rewrite list_fmap_singleton, zsum_cons, Hscore, Hv; [|done..].
    simpl. lia.
  - destruct (value_is_bool _ _ _ _ _ _ _ Hfeasible emp d s task
                He Hd Hs Ht) as [H0|H1]; [|done].
    rewrite H0. done.
Qed.

Lemma objective_value_build_model :
  objective_value value model
  = zsum ((λ emp, zsum ((λ d, zsum ((λ s, zsum ((λ task,
      value (key emp d s task) * priority task) <$> tasks)) <$> shifts))
      <$> days)) <$> employees)
  + zsum ((λ emp, zsum ((λ d, zsum ((λ s, zsum ((λ task,
      value (key emp d s task) * preference preferences emp task)
      <$> tasks)) <$> shifts)) <$> days)) <$> employees).
Proof.
  unfold objective_value, model, build_model, objective, objective_terms.
  rewrite fmap_app, zsum_app. f_equal.
  - rewrite zsum_bind. apply zsum_ext. intros emp _.
    rewrite zsum_bind. apply zsum_ext. intros d _.
    rewrite zsum_bind. apply zsum_ext. intros s _.
    apply (zsum_bind_singleton (λ t : Var * Z, value t.1 * t.2)
             (λ task, (key emp d s task, priority task))).
  - rewrite zsum_bind. apply zsum_ext. intros emp _.
    rewrite zsum_bind. apply zsum_ext. intros d _.
    rewrite zsum_bind. apply zsum_ext. intros s _.
    apply (zsum_bind_singleton (λ t : Var * Z, value t.1 * t.2)
             (λ task, (key emp d s task, preference preferences emp task))).
Qed.

Lemma objective_value_schedule :
  objective_value value model
  = achieved_objective tasks preferences
      (extract_schedule employees tasks days shifts value).
Proof.
  rewrite objective_value_build_model.
  unfold achieved_objective, entry_score.
  rewrite (zsum_plus (λ entry, priority_of tasks (entry_task_id entry))
    (λ entry, default 0
       (preferences !! (employee_id entry, entry_task_id entry)))).
  f_equal.
  - apply weighted_sum_extract. intros emp d s task He Hd Hs Ht Hv.
    simpl. by apply (priority_of_placed emp d s task).
  - by apply weighted_sum_extract.
Qed.
End Objective.

(** ** Raising one preference score *)

Section Monotone.
Variable Solve : CpModel → CpSolverStatus * (Var → Z).
Variables (employees : list Employee) (tasks : list Task).
Variables (days shifts : list string).
Variables (preferences : gmap (Z * Z) Z) (rules : gmap string Z).
Variables (eid tid delta : Z).

Let preferences' : gmap (Z * Z) Z :=
  <[(eid, tid) := default 0 (preferences !! (eid, tid)) + delta]> preferences.
Let model := build_model employees tasks days shifts preferences rules.
Let model' := build_model employees tasks days shifts preferences' rules.

Hypothesis Hdelta : 0 < delta.

Lemma preference_raised emp task :
  preference preferences emp task ≤ preference preferences' emp task.
Proof.
  unfold preference, preferences'.
  destruct (decide ((eid, tid) = (emp_id emp, task_id task))) as [<-|Hne].
  - rewrite lookup_insert_eq. simpl. lia.
  - by rewrite lookup_insert_ne.
Qed.

(** The constraints do not mention the preferences. *)
Lemma feasible_raised value : feasible value model' = feasible value model.
Proof. reflexivity. Qed.

Lemma objective_value_raised value :
  feasible value model = true →
  objective_value value model ≤ objective_value value model'.
Proof.
  intros Hfeas. unfold model, model'.
  rewrite !objective_value_build_model.
  apply Z.add_le_mono_l.
  apply zsum_le. intros emp He. apply zsum_le. intros d Hd.
  apply zsum_le. intros s Hs. apply zsum_le. intros task Ht.
  apply Z.mul_le_mono_nonneg_l; [|apply preference_raised].
  by apply (value_nonneg employees tasks days shifts preferences rules
              value Hfeas).
Qed.

Lemma achieved_objective_raised :
  cp_sat_contract Solve model → cp_sat_contract Solve model' →
  achieved_objective tasks preferences
    (generate_schedule Solve employees tasks days shifts
       preferences rules).1
  ≤ achieved_objective tasks preferences'
      (generate_schedule Solve employees tasks days shifts
         preferences' rules).1.
Proof.
  intros (Hsound & _ & Hcomplete) (Hsound' & Hoptimal' & Hcomplete').
  rewrite !schedule_of_run. fold model model'.
  destruct (accepted (Solve model).1) eqn:Hacc.
  - pose proof (Hsound Hacc) as Hfeas.
    assert (Hopt' : (Solve model').1 = OPTIMAL).
    { apply Hcomplete'. exists (Solve model).2. by rewrite feasible_raised. }
    assert (Hacc' : accepted (Solve model').1 = true) by by rewrite Hopt'.
    rewrite Hacc'.
    pose proof (Hsound' Hacc') as Hfeas'.
    rewrite <- (objective_value_schedule employees tasks days shifts
                  preferences rules _ Hfeas).
    rewrite <- (objective_value_schedule employees tasks days shifts
                  preferences' rules _ Hfeas').
    etrans; [by apply objective_value_raised|].
    apply Hoptimal'; [done|]. by rewrite feasible_raised.
  - destruct (accepted (Solve model').1) eqn:Hacc'; [|done].
    pose proof (Hsound' Hacc') as Hfeas'. rewrite feasible_raised in Hfeas'.
    assert (Hopt : (Solve model).1 = OPTIMAL) by (apply Hcomplete; eauto).
    rewrite Hopt in Hacc. done.
Qed.
End Monotone.

(** C9.  Raising the preference score of one (employee id, task id) pair by a
    positive amount, everything else unchanged, does not lower the objective
    value of the returned schedule, for an engine that meets the CP-SAT
    contract on the two models. *)
Theorem C9_objective_monotone
    Solve employees tasks days shifts preferences rules eid tid delta :
  0 < delta →
  cp_sat_contract Solve
    (build_model employees tasks days shifts preferences rules) →
  cp_sat_contract Solve
    (build_model employees tasks days shifts
       (<[(eid, tid) := default 0 (preferences !! (eid, tid)) + delta]>
          preferences) rules) →
  achieved_objective tasks preferences
    (generate_schedule Solve employees tasks days shifts preferences rules).1
  ≤ achieved_objective tasks
      (<[(eid, tid) := default 0 (preferences !! (eid, tid)) + delta]>
         preferences)
      (generate_schedule Solve employees tasks days shifts
         (<[(eid, tid) := default 0 (preferences !! (eid, tid)) + delta]>
            preferences) rules).1.
Proof. intros Hdelta. by apply achieved_objective_raised. Qed.

(** ** Scenario A: one employee, one task, both with skill "A" *)

Section ScenarioA.
Variables (eid tid : Z) (ename tname : string).
Variable preferences : gmap (Z * Z) Z.

Let emp0 : Employee := mkEmployee eid ename ["A"%string] [].
Let task0 : Task := mkTask tid tname "A" 1.
Let model := build_model [emp0] [task0] DAYS SHIFTS preferences cap7.
Let score : Z := 1 + default 0 (preferences !! (eid, tid)).

Lemma nothing_feasible : feasible nothing model = true.
Proof. reflexivity. Qed.

Lemma monday_morning_feasible : feasible monday_morning model = true.
Proof. reflexivity. Qed.

Lemma scenario_entry value entry :
  entry ∈ extract_schedule [emp0] [task0] DAYS SHIFTS value →
  ∃ d s, d ∈ DAYS ∧ s ∈ SHIFTS ∧ entry = make_entry d s emp0 task0.
Proof.
  intros (d & s & emp & task & Hd & Hs & He & Ht & _ & ->)
    %elem_of_extract_schedule.
  apply list_elem_of_singleton in He as ->.
  apply list_elem_of_singleton in Ht as ->. by exists d, s.
Qed.

Lemma scenario_score value entry :
  entry ∈ extract_schedule [emp0] [task0] DAYS SHIFTS value →
  entry_score [task0] preferences entry = score.
Proof.
  intros (d & s & _ & _ & ->)%scenario_entry.
  unfold entry_score, priority_of. simpl. by rewrite Z.eqb_refl.
Qed.

Lemma scenario_objective value :
  feasible value model = true →
  objective_value value model
  = score
    * Z.of_nat (length (extract_schedule [emp0] [task0] DAYS SHIFTS value)).
Proof.
  intros Hfeas. unfold model.
  rewrite (objective_value_schedule _ _ _ _ _ _ _ Hfeas).
  unfold achieved_objective.
  rewrite (zsum_ext _ (λ _, score) _ (scenario_score value)).
  induction (extract_schedule _ _ _ _ _) as [|entry l IH];
    [simpl; lia|].
  rewrite fmap_cons, zsum_cons, IH. simpl length. lia.
Qed.

Lemma monday_morning_objective :
  objective_value monday_morning model = score.
Proof. rewrite (scenario_objective _ monday_morning_feasible). simpl. lia. Qed.

Lemma scenario_at_most_one value :
  feasible value model = true →
  (length (extract_schedule [emp0] [task0] DAYS SHIFTS value) ≤ 1)%nat.
Proof.
  intros Hfeas.
  pose proof (task_count_le_one _ _ _ _ _ _ _ Hfeas tid) as Hle.
  rewrite filter_all in Hle; [done|].
  by intros entry (d & s & _ & _ & ->)%scenario_entry.
Qed.

(** No schedule of the scenario scores more than the single placement. *)
Lemma scenario_optimum value :
  0 ≤ score → feasible value model = true →
  objective_value value model ≤ score.
Proof.
  intros Hscore Hfeas. rewrite (scenario_objective _ Hfeas).
  pose proof (scenario_at_most_one _ Hfeas). nia.
Qed.

Lemma scenario_run Solve :
  0 < score → cp_sat_contract Solve model →
  ∃ d s, d ∈ DAYS ∧ s ∈ SHIFTS ∧
    generate_schedule Solve [emp0] [task0] DAYS SHIFTS preferences cap7
    = ([make_entry d s emp0 task0], []).
Proof.
  intros Hscore (Hsound & Hoptimal & Hcomplete).
  assert (Hopt : (Solve model).1 = OPTIMAL).
  { apply Hcomplete. exists nothing. apply nothing_feasible. }
  assert (Hacc : accepted (Solve model).1 = true) by by rewrite Hopt.
  pose proof (Hsound Hacc) as Hfeas.
  pose proof (Hoptimal Hopt _ monday_morning_feasible) as Hbest.
  rewrite monday_morning_objective, (scenario_objective _ Hfeas) in Hbest.
  pose proof (scenario_at_most_one _ Hfeas) as Hone.
  rewrite run_accepted; [|done]. fold model. cbv zeta.
  destruct (extract_schedule _ _ _ _ (Solve model).2)
    as [|entry [|entry' rest]] eqn:Hextract;
    simpl length in Hbest, Hone; [lia| |lia].
  assert (Hin : entry ∈
    extract_schedule [emp0] [task0] DAYS SHIFTS (Solve model).2).
  { rewrite Hextract. by left. }
  apply scenario_entry in Hin as (d & s & Hd & Hs & ->).
  exists d, s. split; [done|]. split; [done|]. f_equal.
  rewrite filter_cons, filter_nil.
  rewrite decide_False; [done|]. simpl.
  rewrite elem_of_difference. by intros [? ?].
Qed.
End ScenarioA.

(** The sample engine meets the contract on the scenario with Ann and the
    stock task, whatever the preferences, as long as the placement scores
    no less than 0. *)
Lemma monday_engine_contract (preferences : gmap (Z * Z) Z) :
  0 ≤ 1 + default 0 (preferences !! (1, 1)) →
  cp_sat_contract monday_engine
    (build_model [ann] [stock] DAYS SHIFTS preferences cap7).
Proof.
  intros Hscore.
  assert (Hfeas : feasible (only (1, "Mon", "Morning", 1)%string)
    (build_model [ann] [stock] DAYS SHIFTS preferences cap7) = true)
    by reflexivity.
  split; [|split].
  - by intros _.
  - intros _ value' Hfeas'.
    pose proof (scenario_optimum 1 1 "Ann" "Stock" preferences value'
                  Hscore Hfeas') as Hle.
    pose proof (scenario_objective 1 1 "Ann" "Stock" preferences _ Hfeas)
      as Hbest.
    change (extract_schedule _ _ _ _ _)
      with [make_entry "Mon" "Morning" ann stock] in Hbest.
    simpl length in Hbest.
    change (monday_engine _).2 with (only (1, "Mon", "Morning", 1)%string).
    unfold ann, stock. lia.
  - by intros _.
Qed.

(** C8.  Scenario A: one employee with the skill set {"A"} and no unavailable
    day, one task that requires "A" with priority 1, the fixed 7-day, 2-shift
    grid, no preferences and max_shifts_per_week = 7.  The run returns exactly
    one schedule entry, for that employee and that task on a slot of the grid,
    and an empty unscheduled list. *)
Theorem C8_scenario_A Solve eid ename tid tname :
  let emp := mkEmployee eid ename ["A"%string] [] in
  let task := mkTask tid tname "A" 1 in
  cp_sat_contract Solve (build_model [emp] [task] DAYS SHIFTS ∅ cap7) →
  ∃ d s, d ∈ DAYS ∧ s ∈ SHIFTS ∧
    generate_schedule Solve [emp] [task] DAYS SHIFTS ∅ cap7
    = ([make_entry d s emp task], []).
Proof.
  intros emp task Hcontract.
  apply (scenario_run eid tid ename tname ∅ Solve); [|done].
  rewrite lookup_empty. simpl. lia.
Qed.

Lemma C8_scenario_A_witness :
  cp_sat_contract monday_engine (build_model [ann] [stock] DAYS SHIFTS ∅ cap7) ∧
  ∃ d s, d ∈ DAYS ∧ s ∈ SHIFTS ∧
    generate_schedule monday_engine [ann] [stock] DAYS SHIFTS ∅ cap7
    = ([make_entry d s ann stock], []).
Proof.
  assert (Hcontract : cp_sat_contract monday_engine
            (build_model [ann] [stock] DAYS SHIFTS ∅ cap7)).
  { apply monday_engine_contract. vm_compute. discriminate. }
  split; [exact Hcontract|].
  exact (C8_scenario_A monday_engine 1 "Ann" 1 "Stock" Hcontract).
Defined.

Lemma C9_objective_monotone_witness :
  0 < 1 ∧
  cp_sat_contract monday_engine (build_model [ann] [stock] DAYS SHIFTS ∅ cap7) ∧
  cp_sat_contract monday_engine
    (build_model [ann] [stock] DAYS SHIFTS raised cap7) ∧
  achieved_objective [stock] ∅
    (generate_schedule monday_engine [ann] [stock] DAYS SHIFTS ∅ cap7).1
  ≤ achieved_objective [stock] raised
      (generate_schedule monday_engine [ann] [stock] DAYS SHIFTS raised cap7).1.
Proof.
  assert (Hdelta : 0 < 1) by lia.
  assert (Hbefore : cp_sat_contract monday_engine
            (build_model [ann] [stock] DAYS SHIFTS ∅ cap7)).
  { apply monday_engine_contract. vm_compute. discriminate. }
  assert (Hafter : cp_sat_contract monday_engine
            (build_model [ann] [stock] DAYS SHIFTS raised cap7)).
  { apply monday_engine_contract. vm_compute. discriminate. }
  split; [exact Hdelta|]. split; [exact Hbefore|]. split; [exact Hafter|].
  exact (C9_objective_monotone monday_engine [ann] [stock] DAYS SHIFTS ∅ cap7
           1 1 1 Hdelta Hbefore Hafter).
Defined.

(** ** Two runs on one model *)

Lemma sunday_engine_contract :
  cp_sat_contract sunday_engine (build_model [ann] [stock] DAYS SHIFTS ∅ cap7).
Proof.
  assert (Hfeas : feasible (only (1, "Sun", "Evening", 1)%string)
    (build_model [ann] [stock] DAYS SHIFTS ∅ cap7) = true) by reflexivity.
  assert (Hscore : 0 ≤ 1 + default 0 ((∅ : gmap (Z * Z) Z) !! (1, 1)))
    by (vm_compute; discriminate).
  split; [|split].
  - by intros _.
  - intros _ value' Hfeas'.
    pose proof (scenario_optimum 1 1 "Ann" "Stock" ∅ value' Hscore Hfeas')
      as Hle.
    pose proof (scenario_objective 1 1 "Ann" "Stock" ∅ _ Hfeas) as Hbest.
    change (extract_schedule _ _ _ _ _)
      with [make_entry "Sun" "Evening" ann stock] in Hbest.
    simpl length in Hbest.
    change (sunday_engine _).2 with (only (1, "Sun", "Evening", 1)%string).
    unfold ann, stock. lia.
  - by intros _.
Qed.

Section TwoRuns.
Variables Solve Solve' : CpModel → CpSolverStatus * (Var → Z).
Variables (employees : list Employee) (tasks : list Task).
Variables (days shifts : list string).
Variables (preferences : gmap (Z * Z) Z) (rules : gmap string Z).

(** Two runs that hand the same model to the engine and read its answer
    over lists with the same ids and names return the same result as soon
    as the engine answers the two calls alike. *)
Lemma runs_agree (employees' : list Employee) preferences' rules' :
  build_model employees' tasks days shifts preferences' rules'
  = build_model employees tasks days shifts preferences rules →
  (∀ value, extract_schedule employees' tasks days shifts value
            = extract_schedule employees tasks days shifts value) →
  Solve' (build_model employees tasks days shifts preferences rules)
  = Solve (build_model employees tasks days shifts preferences rules) →
  generate_schedule Solve' employees' tasks days shifts preferences' rules'
  = generate_schedule Solve employees tasks days shifts preferences rules.
Proof.
  intros Hmodel Hextract Hanswer. unfold generate_schedule.
  rewrite Hmodel, Hanswer. destruct (Solve _) as [status value].
  by rewrite Hextract.
Qed.
End TwoRuns.

(** C10 (as stated, refuted).  The result of a run is not fixed by its
    input: the engine is called once per run and is free in the optimal
    solution it picks.  On Ann with the out-of-grid day "Holiday" one
    engine that meets the contract returns the Monday morning placement,
    and on Ann without that day another engine that meets the contract
    returns the Sunday evening placement. *)
Lemma C10_two_runs_may_differ :
  cp_sat_contract monday_engine
    (build_model [ann_on_holiday] [stock] DAYS SHIFTS ∅ cap7) ∧
  cp_sat_contract sunday_engine
    (build_model (drop_out_of_grid DAYS <$> [ann_on_holiday]) [stock]
       DAYS SHIFTS ∅ cap7) ∧
  generate_schedule sunday_engine
    (drop_out_of_grid DAYS <$> [ann_on_holiday]) [stock] DAYS SHIFTS ∅ cap7
  ≠ generate_schedule monday_engine [ann_on_holiday] [stock]
      DAYS SHIFTS ∅ cap7.
Proof.
  split; [|split].
  - rewrite <- (build_model_trimmed [ann_on_holiday]).
    apply (monday_engine_contract ∅). vm_compute. discriminate.
  - exact sunday_engine_contract.
  - vm_compute. discriminate.
Qed.

(** C10 (amended).  Unavailable days that are not days of the grid reach
    neither the engine nor the extractor: the run on the employees without
    them builds the same model, and it returns the same schedule and the
    same unscheduled list whenever the engine gives its call the answer it
    gives the call of the other run.  [generate_schedule] is a total
    function, so no error stands for such days either. *)
Theorem C10_out_of_grid_days_ignored
    (Solve Solve' : CpModel → CpSolverStatus * (Var → Z))
    (employees : list Employee) (tasks : list Task) (days shifts : list string)
    (preferences : gmap (Z * Z) Z) (rules : gmap string Z) :
  build_model (drop_out_of_grid days <$> employees) tasks days shifts
    preferences rules
  = build_model employees tasks days shifts preferences rules ∧
  (Solve' (build_model employees tasks days shifts preferences rules)
   = Solve (build_model employees tasks days shifts preferences rules) →
   generate_schedule Solve' (drop_out_of_grid days <$> employees) tasks days
     shifts preferences rules
   = generate_schedule Solve employees tasks days shifts preferences rules).
Proof.
  split; [apply build_model_trimmed|].
  apply runs_agree; [apply build_model_trimmed|].
  intros value. apply extract_schedule_trimmed.
Qed.

Lemma C10_out_of_grid_days_ignored_witness :
  cap_engine (build_model [ann_on_holiday] [stock] DAYS SHIFTS ∅ cap7)
  = monday_engine (build_model [ann_on_holiday] [stock] DAYS SHIFTS ∅ cap7) ∧
  generate_schedule cap_engine (drop_out_of_grid DAYS <$> [ann_on_holiday])
    [stock] DAYS SHIFTS ∅ cap7
  = generate_schedule monday_engine [ann_on_holiday] [stock]
      DAYS SHIFTS ∅ cap7.
Proof.
  assert (Hanswer :
    cap_engine (build_model [ann_on_holiday] [stock] DAYS SHIFTS ∅ cap7)
    = monday_engine (build_model [ann_on_holiday] [stock] DAYS SHIFTS ∅ cap7))
    by reflexivity.
  split; [exact Hanswer|].
  exact (proj2 (C10_out_of_grid_days_ignored monday_engine cap_engine
                  [ann_on_holiday] [stock] DAYS SHIFTS ∅ cap7) Hanswer).
Defined.

(** ** More on the returned schedule *)

Lemma zsum_task_outermost {A B C D} (f : A → B → C → D → Z)
    (la : list A) (lb : list B) (lc : list C) (ld : list D) :
  zsum ((λ a, zsum ((λ b, zsum ((λ c, zsum ((λ d,
    f a b c d) <$> ld)) <$> lc)) <$> lb)) <$> la)
  = zsum ((λ d, zsum ((λ a, zsum ((λ b, zsum ((λ c,
      f a b c d) <$> lc)) <$> lb)) <$> la)) <$> ld).
Proof.
  rewrite (zsum_swap (λ d a, zsum ((λ b, zsum ((λ c,
    f a b c d) <$> lc)) <$> lb)) ld la).
  apply zsum_ext. intros a _.
  rewrite (zsum_swap (λ d b, zsum ((λ c, f a b c d) <$> lc)) ld lb).
  apply zsum_ext. intros b _.
  apply (zsum_swap (λ c d, f a b c d) lc ld).
Qed.

Lemma zsum_elem_le3 {A B C} (f : A → B → C → Z)
    (la : list A) (lb : list B) (lc : list C) a b c :
  (∀ a' b' c', a' ∈ la → b' ∈ lb → c' ∈ lc → 0 ≤ f a' b' c') →
  a ∈ la → b ∈ lb → c ∈ lc →
  f a b c
  ≤ zsum ((λ a', zsum ((λ b', zsum ((λ c', f a' b' c') <$> lc)) <$> lb))
      <$> la).
Proof.
  intros Hpos Ha Hb Hc.
  etrans; [apply (zsum_elem_le (λ c', f a b c') lc c); [|done]|].
  { intros c' Hc'. by apply Hpos. }
  etrans; [apply (zsum_elem_le (λ b', zsum ((λ c', f a b' c') <$> lc)) lb b);
           [|done]|].
  { intros b' Hb'. apply zsum_nonneg. intros c' Hc'. by apply Hpos. }
  apply (zsum_elem_le
    (λ a', zsum ((λ b', zsum ((λ c', f a' b' c') <$> lc)) <$> lb)) la a);
    [|done].
  intros a' Ha'. apply zsum_nonneg. intros b' Hb'.
  apply zsum_nonneg. intros c' Hc'. by apply Hpos.
Qed.

Section Bookings.
Variables (employees : list Employee) (tasks : list Task).
Variables (days shifts : list string).
Variables (preferences : gmap (Z * Z) Z) (rules : gmap string Z).
Variable value : Var → Z.

Let model := build_model employees tasks days shifts preferences rules.

Hypothesis Hfeasible : feasible value model = true.

Lemma counted_nonneg (P : Entry → Prop) `{!∀ e, Decision (P e)}
    emp d s task :
  0 ≤ counted value P emp d s task.
Proof. unfold counted. case_bool_decide; lia. Qed.

(** For one task, the entries of one slot of one employee id are at most the
    value of the task's variable for that slot. *)
Lemma slot_count_of_task emp0 d0 s0 task :
  emp0 ∈ employees → d0 ∈ days → s0 ∈ shifts → task ∈ tasks →
  zsum ((λ d, zsum ((λ s, zsum ((λ emp,
    counted value
      (λ entry, employee_id entry = emp_id emp0 ∧ day entry = d0
                ∧ shift entry = s0) emp d s task)
    <$> employees)) <$> shifts)) <$> days)
  ≤ value (key emp0 d0 s0 task).
Proof.
  intros He0 Hd0 Hs0 Ht.
  destruct (value_is_bool _ _ _ _ _ _ _ Hfeasible emp0 d0 s0 task
              He0 Hd0 Hs0 Ht) as [H0|H1].
  - rewrite zsum_zero; [lia|]. intros d Hd.
    rewrite zsum_zero; [done|]. intros s Hs.
    rewrite zsum_zero; [done|]. intros emp He. unfold counted.
    rewrite bool_decide_eq_false_2; [done|]. simpl.
    intros (Hv & Hid & -> & ->). unfold key in *. rewrite Hid in Hv. lia.
  - rewrite H1.
    etrans; [|by apply (task_at_most_one _ _ _ _ _ _ _ Hfeasible task)].
    rewrite <- (zsum_swap3 (λ emp d s, value (key emp d s task))).
    apply zsum_le. intros d Hd. apply zsum_le. intros s Hs.
    apply zsum_le. intros emp He.
    by apply (counted_le_value employees tasks days shifts preferences rules
                value Hfeasible).
Qed.

Lemma slot_count_le_one eid d0 s0 :
  (length (filter
     (λ entry, employee_id entry = eid ∧ day entry = d0 ∧ shift entry = s0)
     (extract_schedule employees tasks days shifts value)) ≤ 1)%nat.
Proof.
  destruct (filter _ _) as [|entry rest] eqn:Hfilter; [simpl; lia|].
  assert (Hin : entry ∈ filter
    (λ entry, employee_id entry = eid ∧ day entry = d0 ∧ shift entry = s0)
    (extract_schedule employees tasks days shifts value)).
  { rewrite Hfilter. by left. }
  apply list_elem_of_filter in Hin as [(Hid & Hday & Hshift) Hin].
  apply elem_of_extract_schedule in Hin
    as (d & s & emp0 & task0 & Hd & Hs & He0 & _ & _ & ->).
  simpl in Hid, Hday, Hshift. subst eid d0 s0. rewrite <- Hfilter.
  apply Nat2Z.inj_le. rewrite count_entries.
  rewrite (zsum_task_outermost (λ d' s' emp task,
    counted value
      (λ entry, employee_id entry = emp_id emp0 ∧ day entry = d
                ∧ shift entry = s) emp d' s' task)).
  etrans; [|by apply (slot_at_most_one _ _ _ _ _ _ _ Hfeasible emp0 d s)].
  apply zsum_le. intros task Ht. by apply slot_count_of_task.
Qed.
End Bookings.

(** X1.  No double booking: for every employee id, day and shift, the
    returned schedule holds at most one entry. *)
Theorem X1_one_task_per_slot
    Solve employees tasks days shifts preferences rules eid d s :
  solver_sound Solve
    (build_model employees tasks days shifts preferences rules) →
  (length (filter
     (λ entry, employee_id entry = eid ∧ day entry = d ∧ shift entry = s)
     (generate_schedule Solve employees tasks days shifts
        preferences rules).1) ≤ 1)%nat.
Proof.
  intros Hsound. rewrite schedule_of_run.
  destruct (accepted _) eqn:Hacc; [|simpl; lia].
  by apply (slot_count_le_one _ _ _ _ preferences rules), Hsound.
Qed.

Lemma X1_one_task_per_slot_witness :
  solver_sound monday_engine (build_model [ann] [stock] DAYS SHIFTS ∅ cap7) ∧
  (length (filter
     (λ entry, employee_id entry = 1%Z ∧ day entry = "Mon"%string
               ∧ shift entry = "Morning"%string)
     (generate_schedule monday_engine [ann] [stock] DAYS SHIFTS ∅ cap7).1)
   ≤ 1)%nat.
Proof.
  assert (Hsound : solver_sound monday_engine
            (build_model [ann] [stock] DAYS SHIFTS ∅ cap7)).
  { intros _. vm_compute. reflexivity. }
  split; [exact Hsound|].
  exact (X1_one_task_per_slot monday_engine [ann] [stock] DAYS SHIFTS ∅ cap7
           1 "Mon" "Morning" Hsound).
Defined.

(** ** Scheduled and unscheduled tasks add up *)

Lemma zsum_indicator {A} (P : A → Prop) `{!∀ x, Decision (P x)} (l : list A) :
  zsum ((λ x, if bool_decide (P x) then 1 else 0) <$> l)
  = Z.of_nat (length (filter P l)).
Proof.
  induction l as [|x l IH]; [done|].
  rewrite fmap_cons, zsum_cons, filter_cons, IH.
  case_bool_decide as HP.
  - rewrite decide_True; [|done]. simpl length. lia.
  - rewrite decide_False; [|done]. lia.
Qed.

Lemma filter_ext_elem {A} (P Q : A → Prop)
    `{!∀ x, Decision (P x)} `{!∀ x, Decision (Q x)} (l : list A) :
  (∀ x, x ∈ l → P x ↔ Q x) → filter P l = filter Q l.
Proof.
  induction l as [|x l IH]; intros Hiff; [done|].
  rewrite !filter_cons, IH; [|intros y Hy; apply Hiff; by right].
  pose proof (Hiff x (list_elem_of_here x l)) as Hx.
  destruct (decide (P x)), (decide (Q x)); tauto.
Qed.

Lemma length_filter_split {A} (P : A → Prop) `{!∀ x, Decision (P x)}
    (l : list A) :
  (length (filter P l) + length (filter (λ x, ¬ P x) l))%nat = length l.
Proof.
  rewrite <- length_app. apply Permutation_length, filter_app_complement.
Qed.

Section Totals.
Variables (employees : list Employee) (tasks : list Task).
Variables (days shifts : list string).
Variables (preferences : gmap (Z * Z) Z) (rules : gmap string Z).
Variable value : Var → Z.

Let model := build_model employees tasks days shifts preferences rules.
Let schedule := extract_schedule employees tasks days shifts value.

Hypothesis Hfeasible : feasible value model = true.

(** A task of the input accounts for one entry if its id is among the
    placed ids, and for none otherwise. *)
Lemma entries_of_task task :
  task ∈ tasks →
  zsum ((λ d, zsum ((λ s, zsum ((λ emp,
    counted value (λ _, True) emp d s task) <$> employees)) <$> shifts))
    <$> days)
  = if bool_decide (task_id task ∈ entry_task_id <$> schedule) then 1 else 0.
Proof.
  intros Ht. case_bool_decide as Hplaced.
  - apply Z.le_antisymm.
    + etrans; [|by apply (task_at_most_one _ _ _ _ _ _ _ Hfeasible task)].
      rewrite <- (zsum_swap3 (λ emp d s, value (key emp d s task))).
      apply zsum_le. intros d Hd. apply zsum_le. intros s Hs.
      apply zsum_le. intros emp He.
      by apply (counted_le_value employees tasks days shifts preferences
                  rules value Hfeasible).
    + apply list_elem_of_fmap in Hplaced as (entry & Hid & Hin).
      apply elem_of_extract_schedule in Hin
        as (d & s & emp & task' & Hd & Hs & He & _ & Hv & ->).
      simpl in Hid.
      assert (Hone : counted value (λ _, True) emp d s task = 1).
      { unfold counted. rewrite bool_decide_eq_true_2; [done|].
        split; [|done]. unfold key in *. by rewrite Hid. }
      rewrite <- Hone.
      apply (zsum_elem_le3
        (λ d s emp, counted value (λ _, True) emp d s task)
        days shifts employees d s emp); [|done..].
      intros. apply counted_nonneg.
  - rewrite zsum_zero; [done|]. intros d Hd.
    rewrite zsum_zero; [done|]. intros s Hs.
    rewrite zsum_zero; [done|]. intros emp He. unfold counted.
    rewrite bool_decide_eq_false_2; [done|]. intros [Hv _].
    apply Hplaced. apply list_elem_of_fmap.
    exists (make_entry d s emp task). split; [done|].
    apply elem_of_extract_schedule. by exists d, s, emp, task.
Qed.

Lemma length_schedule_placed :
  length schedule
  = length (filter (λ t, task_id t ∈ entry_task_id <$> schedule) tasks).
Proof.
  apply Nat2Z.inj.
  rewrite <- (filter_all (λ _, True) schedule) at 1; [|done].
  unfold schedule at 1. rewrite count_entries.
  rewrite (zsum_task_outermost
    (λ d s emp task, counted value (λ _, True) emp d s task)).
  rewrite (zsum_ext _
    (λ t, if bool_decide (task_id t ∈ entry_task_id <$> schedule)
          then 1 else 0) tasks entries_of_task).
  apply (zsum_indicator (λ t, task_id t ∈ entry_task_id <$> schedule)).
Qed.

Lemma length_schedule_unscheduled :
  (length schedule
   + length (filter (λ t, task_id t ∈
       (list_to_set (task_id <$> tasks) : gset Z)
         ∖ list_to_set (entry_task_id <$> schedule)) tasks))%nat
  = length tasks.
Proof.
  rewrite length_schedule_placed.
  rewrite <- (length_filter_split
    (λ t, task_id t ∈ entry_task_id <$> schedule) tasks).
  f_equal. f_equal. apply filter_ext_elem. intros t Ht.
  rewrite elem_of_difference, !elem_of_list_to_set. split; [by intros [_ ?]|].
  intros Hn. split; [|done]. apply list_elem_of_fmap. by exists t.
Qed.
End Totals.

(** X2.  The two returned lists account for every task of the input once:
    the number of schedule entries plus the number of unscheduled tasks is
    the number of tasks. *)
Theorem X2_scheduled_plus_unscheduled
    Solve employees tasks days shifts preferences rules :
  solver_sound Solve
    (build_model employees tasks days shifts preferences rules) →
  let result :=
    generate_schedule Solve employees tasks days shifts preferences rules in
  (length result.1 + length result.2)%nat = length tasks.
Proof.
  intros Hsound result. unfold result.
  destruct (accepted
    (Solve (build_model employees tasks days shifts preferences rules)).1)
    eqn:Hacc.
  - rewrite run_accepted; [|done]. cbv zeta. simpl fst. simpl snd.
    apply (length_schedule_unscheduled _ _ _ _ preferences rules).
    by apply Hsound.
  - unfold generate_schedule. destruct (Solve _) as [status value].
    simpl in Hacc. by rewrite Hacc.
Qed.

Lemma X2_scheduled_plus_unscheduled_witness :
  solver_sound monday_engine
    (build_model [ann] [stock; audit] DAYS SHIFTS ∅ cap7) ∧
  (length (generate_schedule monday_engine [ann] [stock; audit] DAYS SHIFTS
             ∅ cap7).1
   + length (generate_schedule monday_engine [ann] [stock; audit] DAYS SHIFTS
               ∅ cap7).2)%nat
  = length [stock; audit].
Proof.
  assert (Hsound : solver_sound monday_engine
            (build_model [ann] [stock; audit] DAYS SHIFTS ∅ cap7)).
  { intros _. vm_compute. reflexivity. }
  split; [exact Hsound|].
  exact (X2_scheduled_plus_unscheduled monday_engine [ann] [stock; audit]
           DAYS SHIFTS ∅ cap7 Hsound).
Defined.

(** ** Tasks nobody can take, and empty inputs *)

Lemma bind_all_nil {A B} (f : A → list B) (l : list A) :
  (∀ x, x ∈ l → f x = []) → l ≫= f = [].
Proof.
  induction l as [|x l IH]; intros Hnil; [done|].
  rewrite bind_cons, (Hnil x (list_elem_of_here x l)), IH; [done|].
  intros y Hy. apply Hnil. by right.
Qed.

Lemma filter_unplaced_all (tasks : list Task) :
  filter (λ t, task_id t ∈
    (list_to_set (task_id <$> tasks) : gset Z)
      ∖ list_to_set (entry_task_id <$> ([] : list Entry))) tasks
  = tasks.
Proof.
  apply filter_all. intros t Ht.
  rewrite elem_of_difference, !elem_of_list_to_set. split.
  - apply list_elem_of_fmap. by exists t.
  - by inv 1.
Qed.

Section Unplaceable.
Variable Solve : CpModel → CpSolverStatus * (Var → Z).
Variables (employees : list Employee) (tasks : list Task).
Variables (days shifts : list string).
Variables (preferences : gmap (Z * Z) Z) (rules : gmap string Z).

Let model := build_model employees tasks days shifts preferences rules.
Let run := generate_schedule Solve employees tasks days shifts preferences rules.

(** A run whose extractor finds nothing returns every task. *)
Lemma run_without_entries :
  (accepted (Solve model).1 = true →
   extract_schedule employees tasks days shifts (Solve model).2 = []) →
  run = ([], tasks).
Proof.
  intros Hnone. unfold run.
  destruct (accepted (Solve model).1) eqn:Hacc.
  - rewrite run_accepted; [|done]. fold model. cbv zeta.
    rewrite (Hnone eq_refl). by rewrite filter_unplaced_all.
  - unfold generate_schedule. fold model.
    destruct (Solve model) as [status value]. simpl in Hacc. by rewrite Hacc.
Qed.

Lemma unplaceable_value value emp d s task :
  feasible value model = true →
  emp ∈ employees → d ∈ days → s ∈ shifts → task ∈ tasks →
  ¬ (required_skill task ∈ skills emp ∧ d ∉ unavailable_days emp) →
  value (key emp d s task) = 0.
Proof.
  intros Hfeas He Hd Hs Ht Hno.
  destruct (decide (required_skill task ∈ skills emp)) as [Hskill|Hskill].
  - apply (availability_gate _ _ _ _ _ _ _ Hfeas); [done..|].
    destruct (decide (d ∈ unavailable_days emp)); tauto.
  - by apply (skill_gate _ _ _ _ _ _ _ Hfeas).
Qed.

Lemma unplaceable_task task :
  solver_sound Solve model → task ∈ tasks →
  (∀ emp d, emp ∈ employees → d ∈ days →
     ¬ (required_skill task ∈ skills emp ∧ d ∉ unavailable_days emp)) →
  (task_id task ∉ entry_task_id <$> run.1) ∧ task ∈ run.2.
Proof.
  intros Hsound Ht Hno.
  assert (Hout : task_id task ∉ entry_task_id <$> run.1).
  { intros (entry & Hid & Hin)%list_elem_of_fmap.
    destruct (entry_of_run _ _ _ _ _ _ _ _ Hsound Hin)
      as (Hfeas & d & s & emp & task' & Hd & Hs & He & _ & Hv & ->).
    simpl in Hid.
    pose proof (unplaceable_value _ emp d s task Hfeas He Hd Hs Ht
                  (Hno emp d He Hd)) as Hzero.
    unfold key in *. rewrite Hid in Hzero. lia. }
  split; [done|]. revert Hout. unfold run.
  destruct (accepted (Solve model).1) eqn:Hacc.
  - rewrite run_accepted; [|done]. fold model. cbv zeta. simpl.
    intros Hout. apply list_elem_of_filter. split; [|done].
    rewrite elem_of_difference, !elem_of_list_to_set. split; [|done].
    apply list_elem_of_fmap. by exists task.
  - unfold generate_schedule. fold model.
    destruct (Solve model) as [status value]. simpl in Hacc.
    by rewrite Hacc.
Qed.

Lemma nothing_placeable :
  solver_sound Solve model →
  (∀ emp d task, emp ∈ employees → d ∈ days → task ∈ tasks →
     ¬ (required_skill task ∈ skills emp ∧ d ∉ unavailable_days emp)) →
  run = ([], tasks).
Proof.
  intros Hsound Hno. apply run_without_entries. intros Hacc.
  pose proof (Hsound Hacc) as Hfeas. unfold extract_schedule.
  apply bind_all_nil. intros d Hd. apply bind_all_nil. intros s Hs.
  apply bind_all_nil. intros emp He. apply bind_all_nil. intros task Ht.
  rewrite (unplaceable_value _ emp d s task Hfeas He Hd Hs Ht
             (Hno emp d task He Hd Ht)). done.
Qed.

Lemma empty_input :
  employees = [] ∨ tasks = [] ∨ days = [] ∨ shifts = [] →
  run = ([], tasks).
Proof.
  intros Hempty. apply run_without_entries. intros _.
  unfold extract_schedule.
  destruct Hempty as [Hnil | [Hnil | [Hnil | Hnil]]]; rewrite Hnil.
  - apply bind_all_nil. intros d _. by apply bind_all_nil.
  - apply bind_all_nil. intros d _. apply bind_all_nil. intros s _.
    by apply bind_all_nil.
  - done.
  - by apply bind_all_nil.
Qed.
End Unplaceable.

(** X3.  A task that no employee of the input can take on any day of the
    grid, for lack of the skill or of a free day, is never placed and is
    returned in the unscheduled list. *)
Theorem X3_unplaceable_task_unscheduled
    Solve employees tasks days shifts preferences rules task :
  solver_sound Solve
    (build_model employees tasks days shifts preferences rules) →
  task ∈ tasks →
  (∀ emp d, emp ∈ employees → d ∈ days →
     ¬ (required_skill task ∈ skills emp ∧ d ∉ unavailable_days emp)) →
  let result :=
    generate_schedule Solve employees tasks days shifts preferences rules in
  (task_id task ∉ entry_task_id <$> result.1) ∧ task ∈ result.2.
Proof. intros Hsound Ht Hno. by apply unplaceable_task. Qed.

Lemma X3_unplaceable_task_unscheduled_witness :
  solver_sound monday_engine
    (build_model [ann] [stock; audit] DAYS SHIFTS ∅ cap7) ∧
  audit ∈ [stock; audit] ∧
  (∀ emp d, emp ∈ [ann] → d ∈ DAYS →
     ¬ (required_skill audit ∈ skills emp ∧ d ∉ unavailable_days emp)) ∧
  (task_id audit ∉ entry_task_id <$>
    (generate_schedule monday_engine [ann] [stock; audit] DAYS SHIFTS
       ∅ cap7).1) ∧
  audit ∈ (generate_schedule monday_engine [ann] [stock; audit] DAYS SHIFTS
             ∅ cap7).2.
Proof.
  assert (Hsound : solver_sound monday_engine
            (build_model [ann] [stock; audit] DAYS SHIFTS ∅ cap7)).
  { intros _. vm_compute. reflexivity. }
  assert (Hin : audit ∈ [stock; audit]) by (right; left).
  assert (Hno : ∀ emp d, emp ∈ [ann] → d ∈ DAYS →
     ¬ (required_skill audit ∈ skills emp ∧ d ∉ unavailable_days emp)).
  { intros emp d ->%list_elem_of_singleton _ [Hskill _].
    apply list_elem_of_singleton in Hskill. discriminate. }
  split; [exact Hsound|]. split; [exact Hin|]. split; [exact Hno|].
  exact (X3_unplaceable_task_unscheduled monday_engine [ann] [stock; audit]
           DAYS SHIFTS ∅ cap7 audit Hsound Hin Hno).
Defined.

(** X4.  If no employee can take any task on any day of the grid (no skill
    matches, or every employee is unavailable all week), the run returns an
    empty schedule and the whole task list as unscheduled. *)
Theorem X4_nothing_placeable
    Solve employees tasks days shifts preferences rules :
  solver_sound Solve
    (build_model employees tasks days shifts preferences rules) →
  (∀ emp d task, emp ∈ employees → d ∈ days → task ∈ tasks →
     ¬ (required_skill task ∈ skills emp ∧ d ∉ unavailable_days emp)) →
  generate_schedule Solve employees tasks days shifts preferences rules
  = ([], tasks).
Proof. intros Hsound Hno. by apply nothing_placeable. Qed.

(** X5.  With no employee, no task, no day or no shift, the run returns an
    empty schedule and the task list unchanged, whatever the engine
    answers. *)
Theorem X5_empty_input Solve employees tasks days shifts preferences rules :
  employees = [] ∨ tasks = [] ∨ days = [] ∨ shifts = [] →
  generate_schedule Solve employees tasks days shifts preferences rules
  = ([], tasks).
Proof. apply empty_input. Qed.

Lemma X5_empty_input_witness :
  ([] = ([] : list Employee) ∨ [stock] = [] ∨ DAYS = [] ∨ SHIFTS = []) ∧
  generate_schedule monday_engine [] [stock] DAYS SHIFTS ∅ cap7
  = ([], [stock]).
Proof.
  assert (Hempty : [] = ([] : list Employee) ∨ [stock] = []
                   ∨ DAYS = [] ∨ SHIFTS = []) by (left; reflexivity).
  split; [exact Hempty|].
  exact (X5_empty_input monday_engine [] [stock] DAYS SHIFTS ∅ cap7 Hempty).
Defined.

Lemma X4_nothing_placeable_witness :
  solver_sound idle_engine (build_model [ann] [audit] DAYS SHIFTS ∅ cap7) ∧
  (∀ emp d task, emp ∈ [ann] → d ∈ DAYS → task ∈ [audit] →
     ¬ (required_skill task ∈ skills emp ∧ d ∉ unavailable_days emp)) ∧
  generate_schedule idle_engine [ann] [audit] DAYS SHIFTS ∅ cap7
  = ([], [audit]).
Proof.
  assert (Hsound : solver_sound idle_engine
            (build_model [ann] [audit] DAYS SHIFTS ∅ cap7)).
  { intros _. vm_compute. reflexivity. }
  assert (Hno : ∀ emp d task, emp ∈ [ann] → d ∈ DAYS → task ∈ [audit] →
     ¬ (required_skill task ∈ skills emp ∧ d ∉ unavailable_days emp)).
  { intros emp d task ->%list_elem_of_singleton _ ->%list_elem_of_singleton
      [Hskill _].
    apply list_elem_of_singleton in Hskill. discriminate. }
  split; [exact Hsound|]. split; [exact Hno|].
  exact (X4_nothing_placeable idle_engine [ann] [audit] DAYS SHIFTS ∅ cap7
           Hsound Hno).
Defined.

(** ** What the run reads of the preferences *)

Lemma bind_ext_elem {A B} (f g : A → list B) (l : list A) :
  (∀ x, x ∈ l → f x = g x) → l ≫= f = l ≫= g.
Proof. intros Hfg. apply Forall_bind_ext, Forall_forall, Hfg. Qed.

Lemma build_model_preferences
    (employees : list Employee) (tasks : list Task) (days shifts : list string)
    (preferences preferences' : gmap (Z * Z) Z) (rules : gmap string Z) :
  (∀ emp task, emp ∈ employees → task ∈ tasks →
     preference preferences emp task = preference preferences' emp task) →
  build_model employees tasks days shifts preferences rules
  = build_model employees tasks days shifts preferences' rules.
Proof.
  intros Hsame. unfold build_model. f_equal.
  unfold objective_terms. f_equal.
  apply bind_ext_elem. intros emp He. apply bind_ext_elem. intros d _.
  apply bind_ext_elem. intros s _. apply bind_ext_elem. intros task Ht.
  by rewrite Hsame.
Qed.

(** X6.  The run reads the preference map only at the (employee id, task id)
    pairs of its input, an absent pair counting as the score 0: two maps
    that give the same scores there give the same model, and the same result
    whenever the engine answers the two calls alike, so entries for
    employees or tasks that are gone reach neither the engine nor the
    result. *)
Theorem X6_stale_preferences_ignored
    (Solve Solve' : CpModel → CpSolverStatus * (Var → Z))
    (employees : list Employee) (tasks : list Task)
    (days shifts : list string)
    (preferences preferences' : gmap (Z * Z) Z) (rules : gmap string Z) :
  (∀ emp task, emp ∈ employees → task ∈ tasks →
     default 0 (preferences !! (emp_id emp, task_id task))
     = default 0 (preferences' !! (emp_id emp, task_id task))) →
  build_model employees tasks days shifts preferences' rules
  = build_model employees tasks days shifts preferences rules ∧
  (Solve' (build_model employees tasks days shifts preferences rules)
   = Solve (build_model employees tasks days shifts preferences rules) →
   generate_schedule Solve' employees tasks days shifts preferences' rules
   = generate_schedule Solve employees tasks days shifts preferences rules).
Proof.
  intros Hsame.
  assert (Hmodel :
    build_model employees tasks days shifts preferences' rules
    = build_model employees tasks days shifts preferences rules).
  { symmetry. by apply build_model_preferences. }
  split; [done|]. by apply runs_agree.
Qed.

Lemma X6_stale_preferences_ignored_witness :
  (∀ emp task, emp ∈ [ann] → task ∈ [stock] →
     default 0 ((∅ : gmap (Z * Z) Z) !! (emp_id emp, task_id task))
     = default 0
         (({[ (9, 9) := 5; (1, 1) := 0 ]} : gmap (Z * Z) Z)
            !! (emp_id emp, task_id task))) ∧
  cap_engine (build_model [ann] [stock] DAYS SHIFTS ∅ cap7)
  = monday_engine (build_model [ann] [stock] DAYS SHIFTS ∅ cap7) ∧
  build_model [ann] [stock] DAYS SHIFTS {[ (9, 9) := 5; (1, 1) := 0 ]} cap7
  = build_model [ann] [stock] DAYS SHIFTS ∅ cap7 ∧
  generate_schedule cap_engine [ann] [stock] DAYS SHIFTS
    {[ (9, 9) := 5; (1, 1) := 0 ]} cap7
  = generate_schedule monday_engine [ann] [stock] DAYS SHIFTS ∅ cap7.
Proof.
  assert (Hsame : ∀ emp task, emp ∈ [ann] → task ∈ [stock] →
     default 0 ((∅ : gmap (Z * Z) Z) !! (emp_id emp, task_id task))
     = default 0
         (({[ (9, 9) := 5; (1, 1) := 0 ]} : gmap (Z * Z) Z)
            !! (emp_id emp, task_id task))).
  { intros emp task ->%list_elem_of_singleton ->%list_elem_of_singleton.
    reflexivity. }
  assert (Hanswer :
    cap_engine (build_model [ann] [stock] DAYS SHIFTS ∅ cap7)
    = monday_engine (build_model [ann] [stock] DAYS SHIFTS ∅ cap7))
    by reflexivity.
  split; [exact Hsame|]. split; [exact Hanswer|].
  destruct (X6_stale_preferences_ignored monday_engine cap_engine [ann]
              [stock] DAYS SHIFTS ∅ {[ (9, 9) := 5; (1, 1) := 0 ]} cap7 Hsame)
    as [Hmodel Hrun].
  split; [exact Hmodel|exact (Hrun Hanswer)].
Defined.

(** ** The size of a schedule *)

Lemma zsum_const {A} (c : Z) (l : list A) :
  zsum ((λ _, c) <$> l) = Z.of_nat (length l) * c.
Proof.
  induction l as [|x l IH]; [done|].
  rewrite fmap_cons, zsum_cons, IH. simpl length. lia.
Qed.

Lemma length_schedule_le_cap
    employees tasks days shifts preferences rules value :
  feasible value
    (build_model employees tasks days shifts preferences rules) = true →
  Z.of_nat (length (extract_schedule employees tasks days shifts value))
  ≤ Z.of_nat (length employees) * max_shifts rules.
Proof.
  intros Hfeas.
  rewrite <- (filter_all (λ _, True)
    (extract_schedule employees tasks days shifts value)); [|done].
  rewrite count_entries.
  rewrite <- zsum_const.
  rewrite (zsum_swap3 (λ emp d s, zsum ((λ task,
    counted value (λ _, True) emp d s task) <$> tasks))).
  apply zsum_le. intros emp He.
  etrans; [|by apply (weekly_cap _ _ _ _ _ _ _ Hfeas emp)].
  apply zsum_le. intros d Hd. apply zsum_le. intros s Hs.
  apply zsum_le. intros task Ht.
  by apply (counted_le_value employees tasks days shifts preferences rules
              value Hfeas).
Qed.

(** X7.  The returned schedule never holds more entries than the number of
    employees times the weekly cap in force (the configured value, or 7
    when the rule is not set), for a cap that is not negative. *)
Theorem X7_schedule_size
    Solve employees tasks days shifts preferences rules :
  0 ≤ max_shifts rules →
  solver_sound Solve
    (build_model employees tasks days shifts preferences rules) →
  Z.of_nat (length (generate_schedule Solve employees tasks days shifts
                      preferences rules).1)
  ≤ Z.of_nat (length employees) * max_shifts rules.
Proof.
  intros Hcap Hsound. rewrite schedule_of_run.
  destruct (accepted _) eqn:Hacc; [|simpl; lia].
  by apply (length_schedule_le_cap _ _ _ _ preferences rules), Hsound.
Qed.

Lemma X7_schedule_size_witness :
  0 ≤ max_shifts cap7 ∧
  solver_sound monday_engine (build_model [ann] [stock] DAYS SHIFTS ∅ cap7) ∧
  Z.of_nat (length (generate_schedule monday_engine [ann] [stock] DAYS SHIFTS
                      ∅ cap7).1)
  ≤ Z.of_nat (length [ann]) * max_shifts cap7.
Proof.
  assert (Hcap : 0 ≤ max_shifts cap7) by (vm_compute; discriminate).
  assert (Hsound : solver_sound monday_engine
            (build_model [ann] [stock] DAYS SHIFTS ∅ cap7)).
  { intros _. vm_compute. reflexivity. }
  split; [exact Hcap|]. split; [exact Hsound|].
  exact (X7_schedule_size monday_engine [ann] [stock] DAYS SHIFTS ∅ cap7
           Hcap Hsound).
Defined.

(** ** Learning a preference: [update_assignment] *)

Lemma update_assignment_insert (learned : gmap (Z * Z) Z) (tid eid : Z) :
  update_assignment learned tid eid
  = <[(eid, tid) := default 0 (learned !! (eid, tid)) + 1]> learned.
Proof. unfold update_assignment. by destruct (learned !! (eid, tid)). Qed.

Lemma lookup_update_assignment
    (learned : gmap (Z * Z) Z) (tid eid : Z) (pair : Z * Z) :
  update_assignment learned tid eid !! pair
  = if decide (pair = (eid, tid))
    then Some (default 0 (learned !! pair) + 1)
    else learned !! pair.
Proof.
  rewrite update_assignment_insert. case_decide as Hpair.
  - subst pair. by rewrite lookup_insert_eq.
  - by rewrite lookup_insert_ne.
Qed.

(** X9.  Learning commutes: two reassignments leave the same table in
    either order, also when they concern the same pair. *)
Theorem X9_update_assignment_commutes
    (learned : gmap (Z * Z) Z) (tid1 eid1 tid2 eid2 : Z) :
  update_assignment (update_assignment learned tid1 eid1) tid2 eid2
  = update_assignment (update_assignment learned tid2 eid2) tid1 eid1.
Proof.
  apply map_eq. intros pair. rewrite !lookup_update_assignment.
  destruct (decide (pair = (eid1, tid1))) as [H1|H1],
           (decide (pair = (eid2, tid2))) as [H2|H2]; done.
Qed.

(** Stored scores start at 1 and only grow. *)
Lemma update_assignment_positive
    (learned : gmap (Z * Z) Z) (tid eid : Z) :
  (∀ pair score, learned !! pair = Some score → 1 ≤ score) →
  ∀ pair score,
    update_assignment learned tid eid !! pair = Some score → 1 ≤ score.
Proof.
  intros Hpos pair score. rewrite lookup_update_assignment.
  case_decide as Hpair; [|apply Hpos].
  intros [= <-]. destruct (learned !! pair) as [old|] eqn:Hold; simpl; [|lia].
  specialize (Hpos pair old Hold). lia.
Qed.

(** X10.  After a reassignment is learned, the regenerated schedule scores
    no less, under the learned table, than the schedule before did under
    the old one, for an engine that meets the CP-SAT contract on the two
    models. *)
Theorem X10_learning_never_lowers_objective
    (Solve : CpModel → CpSolverStatus * (Var → Z))
    (employees : list Employee) (tasks : list Task) (days shifts : list string)
    (learned : gmap (Z * Z) Z) (rules : gmap string Z) (tid eid : Z) :
  cp_sat_contract Solve
    (build_model employees tasks days shifts learned rules) →
  cp_sat_contract Solve
    (build_model employees tasks days shifts
       (update_assignment learned tid eid) rules) →
  achieved_objective tasks learned
    (generate_schedule Solve employees tasks days shifts learned rules).1
  ≤ achieved_objective tasks (update_assignment learned tid eid)
      (generate_schedule Solve employees tasks days shifts
         (update_assignment learned tid eid) rules).1.
Proof.
  rewrite update_assignment_insert. intros Hbefore Hafter.
  by apply achieved_objective_raised.
Qed.

Lemma X10_learning_never_lowers_objective_witness :
  cp_sat_contract monday_engine (build_model [ann] [stock] DAYS SHIFTS ∅ cap7) ∧
  cp_sat_contract monday_engine
    (build_model [ann] [stock] DAYS SHIFTS (update_assignment ∅ 1 1) cap7) ∧
  achieved_objective [stock] ∅
    (generate_schedule monday_engine [ann] [stock] DAYS SHIFTS ∅ cap7).1
  ≤ achieved_objective [stock] (update_assignment ∅ 1 1)
      (generate_schedule monday_engine [ann] [stock] DAYS SHIFTS
         (update_assignment ∅ 1 1) cap7).1.
Proof.
  assert (Hbefore : cp_sat_contract monday_engine
            (build_model [ann] [stock] DAYS SHIFTS ∅ cap7)).
  { apply monday_engine_contract. vm_compute. discriminate. }
  assert (Hafter : cp_sat_contract monday_engine
            (build_model [ann] [stock] DAYS SHIFTS
               (update_assignment ∅ 1 1) cap7)).
  { apply monday_engine_contract. vm_compute. discriminate. }
  split; [exact Hbefore|]. split; [exact Hafter|].
  exact (X10_learning_never_lowers_objective monday_engine [ann] [stock]
           DAYS SHIFTS ∅ cap7 1 1 Hbefore Hafter).
Defined.

(** ** The figures of [dashboard] *)

Lemma length_filter_fmap {A B} (f : A → B) (P : B → Prop)
    `{!∀ y, Decision (P y)} (l : list A) :
  length (filter P (f <$> l)) = length (filter (λ x, P (f x)) l).
Proof.
  induction l as [|x l IH]; [done|].
  rewrite fmap_cons, !filter_cons.
  destruct (decide (P (f x))); simpl; by rewrite IH.
Qed.

Lemma length_filter_mono {A} (P Q : A → Prop)
    `{!∀ x, Decision (P x)} `{!∀ x, Decision (Q x)} (l : list A) :
  (∀ x, x ∈ l → P x → Q x) →
  (length (filter P l) ≤ length (filter Q l))%nat.
Proof.
  induction l as [|x l IH]; intros Himp; [done|].
  assert (length (filter P l) ≤ length (filter Q l))%nat as Hle.
  { apply IH. intros y Hy. apply Himp. by right. }
  pose proof (Himp x (list_elem_of_here x l)) as Hx.
  rewrite !filter_cons.
  destruct (decide (P x)), (decide (Q x)); simpl; try lia. tauto.
Qed.

Lemma filter_none {A} (P : A → Prop) `{!∀ x, Decision (P x)} (l : list A) :
  (∀ x, x ∈ l → ¬ P x) → filter P l = [].
Proof.
  induction l as [|x l IH]; intros Hnone; [done|].
  rewrite filter_cons, decide_False; [|apply Hnone; by left].
  apply IH. intros y Hy. apply Hnone. by right.
Qed.

Lemma NoDup_fmap_elem {A B} (f : A → B) (l : list A) x y :
  NoDup (f <$> l) → x ∈ l → y ∈ l → f x = f y → x = y.
Proof.
  induction l as [|z l IH]; [by inv 2|].
  rewrite fmap_cons. intros [Hz Hnd]%NoDup_cons Hx Hy Hxy.
  apply elem_of_cons in Hx as [->|Hx], Hy as [->|Hy]; [done| | |by apply IH].
  - exfalso. apply Hz. rewrite Hxy. by apply list_elem_of_fmap_2.
  - exfalso. apply Hz. rewrite <- Hxy. by apply list_elem_of_fmap_2.
Qed.

Section CounterFacts.
Implicit Types (counts : gmap string nat) (items : list string).

Let tally counts (item : string) : gmap string nat :=
  <[item := S (default 0%nat (counts !! item))]> counts.

Lemma tally_lookup items : ∀ counts name,
  foldl tally counts items !! name
  = if decide (name ∈ items)
    then Some (default 0 (counts !! name)
               + length (filter (λ item, item = name) items))%nat
    else counts !! name.
Proof.
  induction items as [|item items IH]; intros counts name.
  - rewrite decide_False; [done|]. by inv 1.
  - simpl foldl. rewrite IH. rewrite filter_cons. unfold tally.
    destruct (decide (item = name)) as [->|Hne].
    + rewrite lookup_insert_eq, (decide_True _ _ (list_elem_of_here _ _)).
      simpl. case_decide as Hin; f_equal; [lia|].
      rewrite (filter_none (λ item, item = name) items); [simpl; lia|].
      by intros item Hitem ->.
    + rewrite lookup_insert_ne; [|done].
      destruct (decide (name ∈ items)) as [Hin|Hin].
      * rewrite decide_True; [done|]. by right.
      * rewrite decide_False; [done|].
        intros [?|?]%elem_of_cons; [congruence|done].
Qed.

Lemma Counter_lookup items name :
  Counter items !! name
  = if decide (name ∈ items)
    then Some (length (filter (λ item, item = name) items))
    else None.
Proof.
  unfold Counter. rewrite (tally_lookup items ∅ name).
  by rewrite lookup_empty.
Qed.

Lemma utilization_total_insert counts name count :
  (utilization_total (<[name := count]> counts)
   + default 0 (counts !! name))%nat
  = (count + utilization_total counts)%nat.
Proof.
  assert (Hcomm : ∀ (m : gmap string nat) (j1 j2 : string) (z1 z2 y : nat),
    j1 ≠ j2 → m !! j1 = Some z1 → m !! j2 = Some z2 →
    (z1 + (z2 + y) = z2 + (z1 + y))%nat) by (intros; lia).
  unfold utilization_total.
  destruct (counts !! name) as [old|] eqn:Hold; simpl.
  - rewrite <- (insert_delete_eq counts).
    rewrite (map_fold_insert_L _ _ _ _ _ (Hcomm _));
      [|apply lookup_delete_eq].
    rewrite (map_fold_delete_L _ _ name old counts (Hcomm _) Hold). lia.
  - rewrite (map_fold_insert_L _ _ _ _ _ (Hcomm _) Hold). lia.
Qed.

Lemma tally_total items : ∀ counts,
  utilization_total (foldl tally counts items)
  = (utilization_total counts + length items)%nat.
Proof.
  induction items as [|item items IH]; intros counts; simpl; [lia|].
  rewrite IH. unfold tally.
  pose proof (utilization_total_insert counts item
                (S (default 0%nat (counts !! item)))). lia.
Qed.

Lemma Counter_total items : utilization_total (Counter items) = length items.
Proof. unfold Counter. by rewrite (tally_total items ∅). Qed.
End CounterFacts.

Section DashboardFacts.
Variable Solve : CpModel → CpSolverStatus * (Var → Z).
Variables (employees : list Employee) (tasks : list Task).
Variables (days shifts : list string).
Variables (preferences : gmap (Z * Z) Z) (rules : gmap string Z).

Let model := build_model employees tasks days shifts preferences rules.
Let run := generate_schedule Solve employees tasks days shifts preferences rules.
Let view := dashboard Solve employees tasks preferences days shifts rules.

Let fill (counts : gmap string nat) (emp : Employee) : gmap string nat :=
  match counts !! emp_name emp with
  | Some _ => counts
  | None => <[emp_name emp := 0%nat]> counts
  end.

Lemma fill_lookup (emps : list Employee) : ∀ counts name,
  foldl fill counts emps !! name
  = match counts !! name with
    | Some count => Some count
    | None => if decide (name ∈ emp_name <$> emps) then Some 0%nat else None
    end.
Proof.
  induction emps as [|emp emps IH]; intros counts name.
  - rewrite decide_False; [|by inv 1]. simpl. by destruct (counts !! name).
  - simpl foldl. rewrite IH. unfold fill. rewrite fmap_cons.
    destruct (counts !! emp_name emp) as [count|] eqn:Hemp.
    + destruct (counts !! name) as [c|] eqn:Hname; [done|].
      assert (name ≠ emp_name emp) by congruence.
      destruct (decide (name ∈ emp_name <$> emps)) as [Hin|Hin].
      * rewrite decide_True; [done|]. by right.
      * rewrite decide_False; [done|].
        intros [?|?]%elem_of_cons; [congruence|done].
    + destruct (decide (name = emp_name emp)) as [->|Hne].
      * rewrite lookup_insert_eq, Hemp.
        rewrite decide_True; [done|]. by left.
      * rewrite lookup_insert_ne; [|done].
        destruct (counts !! name) as [c|]; [done|].
        destruct (decide (name ∈ emp_name <$> emps)) as [Hin|Hin].
        -- rewrite decide_True; [done|]. by right.
        -- rewrite decide_False; [done|].
           intros [?|?]%elem_of_cons; [congruence|done].
Qed.

Lemma fill_total (emps : list Employee) : ∀ counts,
  utilization_total (foldl fill counts emps) = utilization_total counts.
Proof.
  induction emps as [|emp emps IH]; intros counts; [done|].
  simpl foldl. rewrite IH. unfold fill.
  destruct (counts !! emp_name emp) as [count|] eqn:Hemp; [done|].
  pose proof (utilization_total_insert counts (emp_name emp) 0%nat) as Hins.
  rewrite Hemp in Hins. simpl in Hins. lia.
Qed.

Lemma dashboard_fields :
  view_schedule view = run.1 ∧
  utilization view = foldl fill (Counter (employee_name <$> run.1)) employees ∧
  task_count_scheduled view = length run.1 ∧
  task_count_unscheduled view = length run.2.
Proof.
  unfold view, dashboard, run.
  destruct (generate_schedule _ _ _ _ _ _ _) as [schedule unscheduled].
  by destruct schedule.
Qed.

Lemma run_names entry :
  entry ∈ run.1 → ∃ emp, emp ∈ employees ∧
    employee_name entry = emp_name emp ∧ employee_id entry = emp_id emp.
Proof.
  unfold run. rewrite schedule_of_run.
  destruct (accepted _); [|by inv 1].
  intros (d & s & emp & task & _ & _ & He & _ & _ & ->)
    %elem_of_extract_schedule. by exists emp.
Qed.

Lemma utilization_lookup name :
  utilization view !! name
  = if decide (name ∈ emp_name <$> employees)
    then Some (length (filter (λ entry, employee_name entry = name)
                         (view_schedule view)))
    else None.
Proof.
  destruct dashboard_fields as (-> & -> & _ & _).
  rewrite fill_lookup, Counter_lookup.
  rewrite (length_filter_fmap employee_name (λ item, item = name)).
  destruct (decide (name ∈ employee_name <$> run.1)) as [Hin|Hin].
  - rewrite decide_True; [done|].
    apply list_elem_of_fmap in Hin as (entry & -> & Hin).
    apply run_names in Hin as (emp & He & -> & _).
    by apply list_elem_of_fmap_2.
  - case_decide; [|done]. f_equal.
    rewrite filter_none; [done|]. intros entry Hentry <-.
    apply Hin. by apply list_elem_of_fmap_2.
Qed.

Lemma utilization_sum :
  utilization_total (utilization view) = task_count_scheduled view ∧
  task_count_scheduled view = length (view_schedule view).
Proof.
  destruct dashboard_fields as (-> & -> & -> & _).
  by rewrite fill_total, Counter_total, length_fmap.
Qed.

Lemma dashboard_task_counts :
  solver_sound Solve model →
  (task_count_scheduled view + task_count_unscheduled view)%nat
  = length tasks.
Proof.
  intros Hsound. destruct dashboard_fields as (_ & _ & -> & ->).
  unfold run.
  destruct (accepted (Solve model).1) eqn:Hacc.
  - rewrite run_accepted; [|done]. fold model. cbv zeta. simpl fst. simpl snd.
    apply (length_schedule_unscheduled _ _ _ _ preferences rules).
    by apply Hsound.
  - unfold generate_schedule. fold model.
    destruct (Solve model) as [status value]. simpl in Hacc. by rewrite Hacc.
Qed.

Lemma utilization_le_cap name count :
  NoDup (emp_name <$> employees) → 0 ≤ max_shifts rules →
  solver_sound Solve model →
  utilization view !! name = Some count →
  Z.of_nat count ≤ max_shifts rules.
Proof.
  intros Hnames Hcap Hsound. rewrite utilization_lookup.
  case_decide as Hname; [|done]. intros [= <-].
  apply list_elem_of_fmap in Hname as (emp0 & -> & He0).
  destruct dashboard_fields as (-> & _ & _ & _).
  etrans; [apply inj_le, (length_filter_mono _
    (λ entry, employee_id entry = emp_id emp0))|].
  { intros entry (emp & He & Hn & Hi)%run_names Hentry.
    rewrite Hi. f_equal.
    apply (NoDup_fmap_elem emp_name employees); [done..|congruence]. }
  unfold run. rewrite schedule_of_run. fold model.
  destruct (accepted (Solve model).1) eqn:Hacc; [|simpl; lia].
  by apply (employee_count_le_cap _ _ _ _ preferences rules _ (Hsound Hacc)).
Qed.
End DashboardFacts.

Lemma max_shifts_rules_dict (max_shifts_rule : option Z) :
  max_shifts (rules_dict max_shifts_rule) = default 7 max_shifts_rule.
Proof.
  unfold max_shifts, rules_dict. rewrite lookup_singleton_eq.
  by destruct max_shifts_rule.
Qed.

(** X11.  The dashboard's utilization table has exactly one figure per
    employee name, the number of schedule entries that carry that name (0
    for an employee without entries), and no figure for any other name. *)
Theorem X11_utilization_figures
    (Solve : CpModel → CpSolverStatus * (Var → Z))
    (employees : list Employee) (tasks : list Task)
    (preferences : gmap (Z * Z) Z) (days shifts : list string)
    (rules : gmap string Z) (name : string) :
  let view := dashboard Solve employees tasks preferences days shifts rules in
  utilization view !! name
  = if decide (name ∈ emp_name <$> employees)
    then Some (length (filter (λ entry, employee_name entry = name)
                         (view_schedule view)))
    else None.
Proof. apply utilization_lookup. Qed.

(** X12.  The figures of the utilization table add up to the dashboard's
    count of scheduled tasks, which is the length of the schedule shown. *)
Theorem X12_utilization_adds_up
    (Solve : CpModel → CpSolverStatus * (Var → Z))
    (employees : list Employee) (tasks : list Task)
    (preferences : gmap (Z * Z) Z) (days shifts : list string)
    (rules : gmap string Z) :
  let view := dashboard Solve employees tasks preferences days shifts rules in
  utilization_total (utilization view) = task_count_scheduled view ∧
  task_count_scheduled view = length (view_schedule view).
Proof. apply utilization_sum. Qed.

(** X13.  On the dashboard the count of scheduled tasks and the count of
    unscheduled tasks add up to the number of tasks. *)
Theorem X13_dashboard_task_counts
    (Solve : CpModel → CpSolverStatus * (Var → Z))
    (employees : list Employee) (tasks : list Task)
    (preferences : gmap (Z * Z) Z) (days shifts : list string)
    (rules : gmap string Z) :
  solver_sound Solve
    (build_model employees tasks days shifts preferences rules) →
  let view := dashboard Solve employees tasks preferences days shifts rules in
  (task_count_scheduled view + task_count_unscheduled view)%nat
  = length tasks.
Proof. intros Hsound. by apply dashboard_task_counts. Qed.

Lemma X13_dashboard_task_counts_witness :
  solver_sound two_engine
    (build_model [ann; bob] [stock; audit] DAYS SHIFTS ∅ (rules_dict None)) ∧
  (task_count_scheduled
     (dashboard two_engine [ann; bob] [stock; audit] ∅ DAYS SHIFTS
        (rules_dict None))
   + task_count_unscheduled
       (dashboard two_engine [ann; bob] [stock; audit] ∅ DAYS SHIFTS
          (rules_dict None)))%nat
  = length [stock; audit].
Proof.
  assert (Hsound : solver_sound two_engine
    (build_model [ann; bob] [stock; audit] DAYS SHIFTS ∅ (rules_dict None))).
  { intros _. vm_compute. reflexivity. }
  split; [exact Hsound|].
  exact (X13_dashboard_task_counts two_engine [ann; bob] [stock; audit] ∅
           DAYS SHIFTS (rules_dict None) Hsound).
Defined.

(** X14.  With employee names that are distinct, no figure of the
    dashboard's utilization table exceeds the weekly cap that
    [get_solver_data] hands over: the stored rule, or 7 when none is stored
    (for a cap that is not negative). *)
Theorem X14_utilization_within_cap
    (Solve : CpModel → CpSolverStatus * (Var → Z))
    (employees : list Employee) (tasks : list Task)
    (preferences : gmap (Z * Z) Z) (days shifts : list string)
    (max_shifts_rule : option Z) (name : string) (count : nat) :
  NoDup (emp_name <$> employees) →
  0 ≤ default 7 max_shifts_rule →
  solver_sound Solve
    (build_model employees tasks days shifts preferences
       (rules_dict max_shifts_rule)) →
  utilization
    (dashboard Solve employees tasks preferences days shifts
       (rules_dict max_shifts_rule)) !! name = Some count →
  Z.of_nat count ≤ default 7 max_shifts_rule.
Proof.
  intros Hnames Hcap Hsound Hcount.
  rewrite <- max_shifts_rules_dict in Hcap |- *.
  by apply (utilization_le_cap Solve employees tasks days shifts preferences
              (rules_dict max_shifts_rule) name count).
Qed.

Lemma X14_utilization_within_cap_witness :
  NoDup (emp_name <$> [ann; bob]) ∧
  0 ≤ default 7 (None : option Z) ∧
  solver_sound two_engine
    (build_model [ann; bob] [stock; audit] DAYS SHIFTS ∅ (rules_dict None)) ∧
  utilization
    (dashboard two_engine [ann; bob] [stock; audit] ∅ DAYS SHIFTS
       (rules_dict None)) !! "Ann"%string = Some 1%nat ∧
  Z.of_nat 1 ≤ default 7 (None : option Z).
Proof.
  assert (Hnames : NoDup (emp_name <$> [ann; bob])).
  { apply (bool_decide_unpack _). vm_compute. exact I. }
  assert (Hcap : 0 ≤ default 7 (None : option Z)) by (simpl; lia).
  assert (Hsound : solver_sound two_engine
    (build_model [ann; bob] [stock; audit] DAYS SHIFTS ∅ (rules_dict None))).
  { intros _. vm_compute. reflexivity. }
  assert (Hcount : utilization
    (dashboard two_engine [ann; bob] [stock; audit] ∅ DAYS SHIFTS
       (rules_dict None)) !! "Ann"%string = Some 1%nat).
  { vm_compute. reflexivity. }
  split; [exact Hnames|]. split; [exact Hcap|]. split; [exact Hsound|].
  split; [exact Hcount|].
  exact (X14_utilization_within_cap two_engine [ann; bob] [stock; audit] ∅
           DAYS SHIFTS None "Ann" 1 Hnames Hcap Hsound Hcount).
Defined.

(** ** Relaxing the weekly cap *)

Lemma feasible_spec value m :
  feasible value m = true ↔
  (∀ x, x ∈ variables m → is_bool value x = true) ∧
  (∀ c, c ∈ constraints m → holds value c = true).
Proof.
  unfold feasible. rewrite andb_true_iff, !forallb_forall.
  split; intros [Hb Hc]; (split; [intros x Hx; apply Hb|intros c Hin; apply Hc]);
    by apply list_elem_of_In.
Qed.

Lemma zsum_nothing (xs : list Var) : zsum (nothing <$> xs) = 0.
Proof. by apply zsum_zero. Qed.

Lemma holds_nothing c :
  (∀ xs bound, c = AddSumLe xs bound → 0 ≤ bound) → holds nothing c = true.
Proof.
  intros Hcap. destruct c as [lits|x|xs bound]; simpl.
  - rewrite zsum_nothing. apply andb_true_iff. split; [|done].
    by apply forallb_forall.
  - done.
  - rewrite zsum_nothing. apply Z.leb_le. by apply (Hcap xs).
Qed.

Lemma elem_of_nonempty {A} (l : list A) : l ≠ [] → ∃ x, x ∈ l.
Proof. destruct l as [|x l]; [done|]. intros _. exists x. by left. Qed.

Section CapRelaxed.
Variable Solve : CpModel → CpSolverStatus * (Var → Z).
Variables (employees : list Employee) (tasks : list Task).
Variables (days shifts : list string).
Variables (preferences : gmap (Z * Z) Z) (rules rules' : gmap string Z).

Let model := build_model employees tasks days shifts preferences rules.
Let model' := build_model employees tasks days shifts preferences rules'.

Hypothesis Hrelaxed : max_shifts rules ≤ max_shifts rules'.

Lemma constraints_build_model c :
  c ∈ constraints model' →
  c ∈ constraints model ∨
  ∃ emp, emp ∈ employees ∧
    c = AddSumLe (total_shifts_for_employee tasks days shifts emp)
          (max_shifts rules') ∧
    AddSumLe (total_shifts_for_employee tasks days shifts emp)
      (max_shifts rules) ∈ constraints model.
Proof.
  unfold model, model', build_model, constraints.
  rewrite !elem_of_app. intros [H|[H|[H|[H|H]]]]; [tauto..|].
  right. unfold cap_constraints in H.
  apply list_elem_of_bind in H as (emp & H & He).
  apply list_elem_of_singleton in H as ->.
  exists emp. split; [done|]. split; [done|].
  do 4 (apply elem_of_app; right).
  apply list_elem_of_bind. exists emp. split; [by left|done].
Qed.

Lemma feasible_relaxed value :
  feasible value model = true → feasible value model' = true.
Proof.
  rewrite !feasible_spec. intros [Hb Hc]. split; [exact Hb|].
  intros c [Hin|(emp & He & -> & Hin)]%constraints_build_model;
    [by apply Hc|].
  apply Hc in Hin. simpl in *. apply Z.leb_le in Hin. apply Z.leb_le. lia.
Qed.

Lemma nothing_feasible_build_model :
  (employees ≠ [] → 0 ≤ max_shifts rules') →
  feasible nothing model' = true.
Proof.
  intros Hcap. apply feasible_spec. split; [done|].
  intros c Hin. apply holds_nothing. intros xs bound ->.
  unfold model', build_model, constraints in Hin.
  rewrite !elem_of_app in Hin.
  destruct Hin as [H|[H|[H|[H|H]]]].
  - unbind H. by apply list_elem_of_singleton in H.
  - unbind H. destruct (has_skill _ _); [by inv H|].
    by apply list_elem_of_singleton in H.
  - unbind H. destruct (bool_decide _); [|by inv H].
    unbind H. by apply list_elem_of_singleton in H.
  - unbind H. by apply list_elem_of_singleton in H.
  - unfold cap_constraints in H.
    apply list_elem_of_bind in H as (emp & H & He).
    apply list_elem_of_singleton in H as [= _ ->].
    apply Hcap. intros ->. by inv He.
Qed.

Lemma cap_nonneg_of_feasible value emp :
  feasible value model' = true → emp ∈ employees → 0 ≤ max_shifts rules'.
Proof.
  intros Hfeas He.
  etrans; [|by apply (weekly_cap _ _ _ _ _ _ _ Hfeas emp)].
  apply zsum_nonneg. intros d Hd. apply zsum_nonneg. intros s Hs.
  apply zsum_nonneg. intros task Ht.
  by apply (value_nonneg employees tasks days shifts preferences rules'
              value Hfeas).
Qed.

Lemma achieved_objective_relaxed :
  cp_sat_contract Solve model → cp_sat_contract Solve model' →
  achieved_objective tasks preferences
    (generate_schedule Solve employees tasks days shifts preferences rules).1
  ≤ achieved_objective tasks preferences
      (generate_schedule Solve employees tasks days shifts
         preferences rules').1.
Proof.
  intros (Hsound & _ & Hcomplete) (Hsound' & Hoptimal' & Hcomplete').
  rewrite !schedule_of_run. fold model model'.
  destruct (accepted (Solve model).1) eqn:Hacc.
  - pose proof (Hsound Hacc) as Hfeas.
    assert (Hopt' : (Solve model').1 = OPTIMAL).
    { apply Hcomplete'. exists (Solve model).2. by apply feasible_relaxed. }
    assert (Hacc' : accepted (Solve model').1 = true) by by rewrite Hopt'.
    rewrite Hacc'. pose proof (Hsound' Hacc') as Hfeas'.
    rewrite <- (objective_value_schedule employees tasks days shifts
                  preferences rules _ Hfeas).
    rewrite <- (objective_value_schedule employees tasks days shifts
                  preferences rules' _ Hfeas').
    apply (Hoptimal' Hopt'). by apply feasible_relaxed.
  - destruct (accepted (Solve model').1) eqn:Hacc'; [|done].
    pose proof (Hsound' Hacc') as Hfeas'.
    assert (Hopt' : (Solve model').1 = OPTIMAL).
    { apply Hcomplete'. by exists (Solve model').2. }
    rewrite <- (objective_value_schedule employees tasks days shifts
                  preferences rules' _ Hfeas').
    assert (Hzero : feasible nothing model' = true).
    { apply nothing_feasible_build_model. intros Hne.
      destruct (elem_of_nonempty employees Hne) as [emp He].
      by apply (cap_nonneg_of_feasible _ emp Hfeas'). }
    pose proof (Hoptimal' Hopt' nothing Hzero) as Hbest.
    unfold objective_value at 1 in Hbest.
    rewrite zsum_zero in Hbest; [exact Hbest|]. by intros t _.
Qed.
End CapRelaxed.

(** X15.  Relaxing the weekly cap does not lower the objective value of the
    returned schedule: with everything else unchanged, a larger
    max_shifts_per_week gives a schedule that scores no less, for an engine
    that meets the CP-SAT contract on the two models. *)
Theorem X15_relaxing_cap_never_lowers_objective
    (Solve : CpModel → CpSolverStatus * (Var → Z))
    (employees : list Employee) (tasks : list Task) (days shifts : list string)
    (preferences : gmap (Z * Z) Z) (rules rules' : gmap string Z) :
  max_shifts rules ≤ max_shifts rules' →
  cp_sat_contract Solve
    (build_model employees tasks days shifts preferences rules) →
  cp_sat_contract Solve
    (build_model employees tasks days shifts preferences rules') →
  achieved_objective tasks preferences
    (generate_schedule Solve employees tasks days shifts preferences rules).1
  ≤ achieved_objective tasks preferences
      (generate_schedule Solve employees tasks days shifts
         preferences rules').1.
Proof. intros Hle. by apply achieved_objective_relaxed. Qed.

(** The sample engine [cap_engine] meets the contract under both caps. *)
Lemma cap_engine_contract_cap0 :
  cp_sat_contract cap_engine (build_model [ann] [stock] DAYS SHIFTS ∅ cap0).
Proof.
  split; [|split].
  - by intros _.
  - intros _ value' Hfeas'.
    change (cap_engine _).2 with nothing.
    change (objective_value nothing _) with 0.
    rewrite (objective_value_schedule _ _ _ _ _ _ _ Hfeas').
    pose proof (length_schedule_le_cap _ _ _ _ _ _ _ Hfeas') as Hle.
    change (max_shifts cap0) with 0 in Hle.
    destruct (extract_schedule _ _ _ _ value') as [|entry rest]; [done|].
    simpl length in Hle. lia.
  - by intros _.
Qed.

Lemma cap_engine_contract_cap7 :
  cp_sat_contract cap_engine (build_model [ann] [stock] DAYS SHIFTS ∅ cap7).
Proof.
  destruct (monday_engine_contract ∅) as (Hsound & Hoptimal & Hcomplete).
  { vm_compute. discriminate. }
  split; [|split].
  - by intros _.
  - intros _ value' Hfeas'. by apply (Hoptimal eq_refl).
  - by intros _.
Qed.

Lemma X15_relaxing_cap_never_lowers_objective_witness :
  max_shifts cap0 ≤ max_shifts cap7 ∧
  cp_sat_contract cap_engine (build_model [ann] [stock] DAYS SHIFTS ∅ cap0) ∧
  cp_sat_contract cap_engine (build_model [ann] [stock] DAYS SHIFTS ∅ cap7) ∧
  achieved_objective [stock] ∅
    (generate_schedule cap_engine [ann] [stock] DAYS SHIFTS ∅ cap0).1
  ≤ achieved_objective [stock] ∅
      (generate_schedule cap_engine [ann] [stock] DAYS SHIFTS ∅ cap7).1.
Proof.
  assert (Hle : max_shifts cap0 ≤ max_shifts cap7)
    by (vm_compute; discriminate).
  split; [exact Hle|].
  split; [exact cap_engine_contract_cap0|].
  split; [exact cap_engine_contract_cap7|].
  exact (X15_relaxing_cap_never_lowers_objective cap_engine [ann] [stock]
           DAYS SHIFTS ∅ cap0 cap7 Hle
           cap_engine_contract_cap0 cap_engine_contract_cap7).
Defined.

(** X16.  Stored preference scores stay at 1 or above: if every score of the
    table is at least 1, so is every score after [update_assignment]. *)
Theorem X16_update_assignment_keeps_scores_positive
    (learned : gmap (Z * Z) Z) (tid eid : Z) (pair : Z * Z) (score : Z) :
  (∀ pair' score', learned !! pair' = Some score' → 1 ≤ score') →
  update_assignment learned tid eid !! pair = Some score →
  1 ≤ score.
Proof. intros Hpos. by apply update_assignment_positive. Qed.

Lemma X16_update_assignment_keeps_scores_positive_witness :
  (∀ pair' score',
     ({[ (1, 1) := 1 ]} : gmap (Z * Z) Z) !! pair' = Some score' →
     1 ≤ score') ∧
  update_assignment {[ (1, 1) := 1 ]} 1 1 !! (1, 1) = Some 2 ∧
  1 ≤ 2.
Proof.
  assert (Hpos : ∀ pair' score',
     ({[ (1, 1) := 1 ]} : gmap (Z * Z) Z) !! pair' = Some score' →
     1 ≤ score').
  { intros pair' score' [_ <-]%lookup_singleton_Some. lia. }
  assert (Hnew : update_assignment {[ (1, 1) := 1 ]} 1 1 !! (1, 1) = Some 2)
    by reflexivity.
  split; [exact Hpos|]. split; [exact Hnew|].
  exact (X16_update_assignment_keeps_scores_positive {[ (1, 1) := 1 ]} 1 1
           (1, 1) 2 Hpos Hnew).
Defined.
